(** * Taxi booking system: records and the observer mechanism

    A shallow embedding of [taxi_booking_system.py]: the [Booking] and
    [Location] records with their accessors, and the notification manager
    with its three observer classes.  Python method calls that can raise are
    modelled in a small state-and-exception monad over a [World] holding the
    class-level subscriber list, the per-instance [_state] attributes and the
    output written by [print].

    The manager is modelled twice.  The first model has the three observer
    classes of the repository as its only subscribers and the class's list
    as the only list.  The second, [Objects], has any implementation of
    [Observer] as a subscriber and looks [_observers] up on the instance
    before the class, over a store of list objects; [store_simulates_world]
    shows that the first model is the second one restricted to the
    repository's classes. *)

From stdpp Require Import base option list strings gmap pretty.
From Stdlib Require Import ZArith Lia Ascii.

Open Scope Z_scope.

(** ** Results of Python calls *)

(** The built-in exceptions the modelled code can raise. *)
Inductive exn := TypeError | ValueError.

(** A call either returns a value or unwinds with an exception. *)
Inductive outcome (A : Type) :=
  | Returns (a : A)
  | Raises (e : exn).
Arguments Returns {A} a.
Arguments Raises {A} e.

(** Modelled from the spec: the enumeration of booking statuses.  The source
    stores whatever value it is given in [book_status] and declares no
    enumeration; the five names are those of the lifecycle description. *)
Inductive BookStatus := Requested | Assigned | EnRoute | Completed | Cancelled.

Definition is_terminal (s : BookStatus) : bool :=
  match s with
  | Completed | Cancelled => true
  | _ => false
  end.

(** A latitude/longitude tuple; the default [()] is the empty list. *)
Definition latlng := list Z.

(** ** class Booking *)
Module Booking.

Record t := mk {
  booking_id : Z;
  book_status : BookStatus;
  customer_id : Z;
  driver_id : option Z;
  location_id : Z;
  travel_time : Z
}.

Definition get_booking_id (self : t) := booking_id self.
Definition set_booking_id (self : t) (new_booking_id : Z) : t :=
  mk new_booking_id (book_status self) (customer_id self) (driver_id self)
     (location_id self) (travel_time self).

Definition get_book_status (self : t) := book_status self.
Definition set_book_status (self : t) (new_book_status : BookStatus) : t :=
  mk (booking_id self) new_book_status (customer_id self) (driver_id self)
     (location_id self) (travel_time self).

Definition get_customer_id (self : t) := customer_id self.
Definition set_customer_id (self : t) (new_customer_id : Z) : t :=
  mk (booking_id self) (book_status self) new_customer_id (driver_id self)
     (location_id self) (travel_time self).

Definition get_driver_id (self : t) := driver_id self.
Definition set_driver_id (self : t) (new_driver_id : option Z) : t :=
  mk (booking_id self) (book_status self) (customer_id self) new_driver_id
     (location_id self) (travel_time self).

Definition get_location_id (self : t) := location_id self.
Definition set_location_id (self : t) (new_location_id : Z) : t :=
  mk (booking_id self) (book_status self) (customer_id self) (driver_id self)
     new_location_id (travel_time self).

Definition get_travel_time (self : t) := travel_time self.
Definition set_travel_time (self : t) (new_travel_time : Z) : t :=
  mk (booking_id self) (book_status self) (customer_id self) (driver_id self)
     (location_id self) new_travel_time.

(** The mutating methods of the class, as requests a caller can make. *)
Inductive mutation :=
  | SetBookingId (v : Z)
  | SetBookStatus (s : BookStatus)
  | SetCustomerId (v : Z)
  | SetDriverId (v : option Z)
  | SetLocationId (v : Z)
  | SetTravelTime (v : Z).

(** Calling a setter: none of them has a guard or a [raise], so every call
    returns, with the object updated. *)
Definition call (op : mutation) (self : t) : outcome t :=
  match op with
  | SetBookingId v => Returns (set_booking_id self v)
  | SetBookStatus s => Returns (set_book_status self s)
  | SetCustomerId v => Returns (set_customer_id self v)
  | SetDriverId v => Returns (set_driver_id self v)
  | SetLocationId v => Returns (set_location_id self v)
  | SetTravelTime v => Returns (set_travel_time self v)
  end.

End Booking.

(** ** class Location *)
Module Location.

Record t := mk {
  location_id : Z;
  booking_id : Z;
  origin_latlng : latlng;
  destination_latlng : latlng;
  current_latlng : latlng
}.

(** [__init__] with its three defaulted tuple parameters left out. *)
Definition init (location_id booking_id : Z) : t :=
  mk location_id booking_id [] [] [].

Definition get_location_id (self : t) := location_id self.
Definition set_location_id (self : t) (new_location_id : Z) : t :=
  mk new_location_id (booking_id self) (origin_latlng self)
     (destination_latlng self) (current_latlng self).

Definition get_booking_id (self : t) := booking_id self.
Definition set_booking_id (self : t) (new_booking_id : Z) : t :=
  mk (location_id self) new_booking_id (origin_latlng self)
     (destination_latlng self) (current_latlng self).

Definition get_origin_latlng (self : t) := origin_latlng self.
Definition set_origin_latlng (self : t) (new_origin_latlng : latlng) : t :=
  mk (location_id self) (booking_id self) new_origin_latlng
     (destination_latlng self) (current_latlng self).

Definition get_destination_latlng (self : t) := destination_latlng self.
Definition set_destination_latlng (self : t) (new_destination_latlng : latlng) : t :=
  mk (location_id self) (booking_id self) (origin_latlng self)
     new_destination_latlng (current_latlng self).

Definition get_current_latlng (self : t) := current_latlng self.
Definition set_current_latlng (self : t) (new_current_latlng : latlng) : t :=
  mk (location_id self) (booking_id self) (origin_latlng self)
     (destination_latlng self) new_current_latlng.

Inductive mutation :=
  | SetLocationId (v : Z)
  | SetBookingId (v : Z)
  | SetOriginLatlng (c : latlng)
  | SetDestinationLatlng (c : latlng)
  | SetCurrentLatlng (c : latlng).

Definition call (op : mutation) (self : t) : outcome t :=
  match op with
  | SetLocationId v => Returns (set_location_id self v)
  | SetBookingId v => Returns (set_booking_id self v)
  | SetOriginLatlng c => Returns (set_origin_latlng self c)
  | SetDestinationLatlng c => Returns (set_destination_latlng self c)
  | SetCurrentLatlng c => Returns (set_current_latlng self c)
  end.

(** A run of setter calls on one object, stopping at the first that raises. *)
Fixpoint run (ops : list mutation) (self : t) : outcome t :=
  match ops with
  | [] => Returns self
  | op :: rest =>
      match call op self with
      | Returns self' => run rest self'
      | Raises e => Raises e
      end
  end.

(** The operations that are not the origin or the destination setter. *)
Definition keeps_endpoints (op : mutation) : bool :=
  match op with
  | SetOriginLatlng _ | SetDestinationLatlng _ => false
  | _ => true
  end.

End Location.

(** ** The observer mechanism *)

(** The concrete subclasses of [Observer]; the abstract base class cannot be
    instantiated. *)
Inductive ObserverClass := CustomerObserver | DriverObserver | OperatorObserver.

(** An observer object: its identity and its class.  The classes define no
    [__eq__], so [==] on observers is identity. *)
Record Observer := { obs_id : nat; obs_class : ObserverClass }.

Global Instance ObserverClass_eq_dec : EqDecision ObserverClass.
Proof. solve_decision. Defined.
Global Instance Observer_eq_dec : EqDecision Observer.
Proof. solve_decision. Defined.
Global Instance exn_eq_dec : EqDecision exn.
Proof. solve_decision. Defined.

(** A [ConcreteNotificationManager] instance, by identity. *)
Definition Manager := nat.

(** What a run leaves behind: the lines written by [print], and a marker for
    every [update] call whose arguments were bound, so that its body started
    to run. *)
Inductive event :=
  | Print (line : string)
  | Enter (observer : Observer).

Global Instance event_eq_dec : EqDecision event.
Proof. solve_decision. Defined.

(** The store.  [_observers] is the one list object created when the class
    statement runs; [instance_state] holds the [_state] attribute of the
    instances that have been assigned one. *)
Record World := {
  _observers : list Observer;
  instance_state : gmap Manager Z;
  trace : list event
}.

(** The class attribute [_state: int = None]. *)
Definition class_state : option Z := None.

Definition M (A : Type) : Type := World → outcome A * World.

Global Instance M_ret : MRet M := λ A a w, (Returns a, w).
Global Instance M_bind : MBind M := λ A B k c w,
  match c w with
  | (Returns a, w') => k a w'
  | (Raises e, w') => (Raises e, w')
  end.

Definition raise {A} (e : exn) : M A := λ w, (Raises e, w).

(** The store with further events at the end of its trace. *)
Definition log (evs : list event) (w : World) : World :=
  {| _observers := _observers w; instance_state := instance_state w;
     trace := trace w ++ evs |}.

Definition emit (ev : event) : M unit := λ w, (Returns tt, log [ev] w).

Definition print (line : string) : M unit := emit (Print line).

(** [self._observers]: no method assigns this attribute on an instance, so
    the lookup finds the class attribute, whatever [self] is. *)
Definition self_observers (self : Manager) : M (list Observer) := λ w,
  (Returns (_observers w), w).

(** In-place update of the list object. *)
Definition store_observers (l : list Observer) : M unit := λ w,
  (Returns tt,
   {| _observers := l; instance_state := instance_state w; trace := trace w |}).

(** [obj._state]: the instance attribute when it has been assigned, the class
    attribute otherwise. *)
Definition getattr_state (obj : Manager) : M (option Z) := λ w,
  (Returns (match instance_state w !! obj with
            | Some z => Some z
            | None => class_state
            end), w).

(** [self._state = v] creates or overwrites the instance attribute. *)
Definition setattr_state (self : Manager) (v : Z) : M unit := λ w,
  (Returns tt,
   {| _observers := _observers w;
      instance_state := <[self := v]> (instance_state w);
      trace := trace w |}).

(** Ordering comparisons of [_state] with an int: [None] is not ordered. *)
Definition py_lt (x : option Z) (n : Z) : M bool :=
  match x with
  | Some z => mret (z <? n)
  | None => raise TypeError
  end.

Definition py_ge (x : option Z) (n : Z) : M bool :=
  match x with
  | Some z => mret (z >=? n)
  | None => raise TypeError
  end.

(** [==] never raises: [None == 0] is [False]. *)
Definition py_eq (x : option Z) (n : Z) : bool :=
  match x with
  | Some z => z =? n
  | None => false
  end.

(** [list.remove(x)]: drops the first element equal to [x]; [None] when there
    is none. *)
Fixpoint list_remove (x : Observer) (l : list Observer) : option (list Observer) :=
  match l with
  | [] => None
  | y :: rest =>
      if decide (y = x) then Some rest
      else cons y <$> list_remove x rest
  end.

(** The [for] statement over a list. *)
Fixpoint for_each {A} (body : A → M unit) (l : list A) : M unit :=
  match l with
  | [] => mret tt
  | x :: rest => body x ;; for_each body rest
  end.

(** *** The observers' [update] methods *)

Definition CustomerObserver_update (notification_manager : Manager) : M unit :=
  s ← getattr_state notification_manager;
  b ← py_lt s 3;
  if (b : bool) then print "CustomerObserver: Reacted to the event" else mret tt.

Definition DriverObserver_update (notification_manager : Manager) : M unit :=
  s ← getattr_state notification_manager;
  if py_eq s 0 then print "DriverObserver: Reacted to the event"
  else
    s' ← getattr_state notification_manager;
    b ← py_ge s' 2;
    if (b : bool) then print "DriverObserver: Reacted to the event" else mret tt.

Definition OperatorObserver_update (notification_manager : Manager) : M unit :=
  s ← getattr_state notification_manager;
  if py_eq s 0 then print "OperatorObserver: Reacted to the event"
  else
    s' ← getattr_state notification_manager;
    b ← py_ge s' 2;
    if (b : bool) then print "OperatorObserver: Reacted to the event" else mret tt.

(** The call of [observer.update] on a list of arguments.  Each of the three
    classes declares [update(self, notification_manager)]: exactly one
    argument besides the receiver binds, any other number is a [TypeError]
    raised before the body runs. *)
Definition update (observer : Observer) (args : list Manager) : M unit :=
  match args with
  | [notification_manager] =>
      emit (Enter observer) ;;
      match obs_class observer with
      | CustomerObserver => CustomerObserver_update notification_manager
      | DriverObserver => DriverObserver_update notification_manager
      | OperatorObserver => OperatorObserver_update notification_manager
      end
  | _ => raise TypeError
  end.

(** *** class ConcreteNotificationManager *)

Definition attach (self : Manager) (observer : Observer) : M unit :=
  print "NotificationManager: Attached an observer." ;;
  l ← self_observers self;
  store_observers (l ++ [observer]).

Definition detach (self : Manager) (observer : Observer) : M unit :=
  l ← self_observers self;
  match list_remove observer l with
  | Some l' => store_observers l'
  | None => raise ValueError
  end.

Definition notify (self : Manager) : M unit :=
  print "NotificationManager: Notifying observers..." ;;
  l ← self_observers self;
  for_each (λ observer, update observer []) l.

(** [update_information], with [r] the value [randrange(0, 10)] returns. *)
Definition update_information (self : Manager) (r : Z) : M unit :=
  print (String "010"%char "NotificationManager: location updated.") ;;
  setattr_state self r ;;
  print ("NotificationManager: My state has just changed to: " +:+ pretty r) ;;
  notify self.

(** The store once the module has been loaded: the class attributes as the
    class statement leaves them, no instance attribute, nothing printed. *)
Definition initial_world : World :=
  {| _observers := []; instance_state := ∅; trace := [] |}.

(** Running a computation for its result and for its final store. *)
Definition result {A} (c : M A) (w : World) : outcome A := fst (c w).
Definition after {A} (c : M A) (w : World) : World := snd (c w).

(** The observers whose [update] body ran, in order. *)
Definition entered (t : list event) : list Observer :=
  omap (λ ev, match ev with Enter o => Some o | Print _ => None end) t.

(** The line an observer of the given class prints when it reacts. *)
Definition reaction_line (c : ObserverClass) : string :=
  match c with
  | CustomerObserver => "CustomerObserver: Reacted to the event"
  | DriverObserver => "DriverObserver: Reacted to the event"
  | OperatorObserver => "OperatorObserver: Reacted to the event"
  end.

(** *** Sessions *)

(** The calls a client can make on managers. *)
Inductive request :=
  | Attach (self : Manager) (observer : Observer)
  | Detach (self : Manager) (observer : Observer)
  | Notify (self : Manager)
  | UpdateInformation (self : Manager) (r : Z).

Definition perform (c : request) : M unit :=
  match c with
  | Attach self observer => attach self observer
  | Detach self observer => detach self observer
  | Notify self => notify self
  | UpdateInformation self r => update_information self r
  end.

(** A session: the calls are made one after the other, and a call that
    raises leaves the store as it was when the exception left it. *)
Fixpoint session (cs : list request) (w : World) : World :=
  match cs with
  | [] => w
  | c :: rest => session rest (after (perform c) w)
  end.

(** ** Sample objects *)

Definition customer1 : Observer := {| obs_id := 1; obs_class := CustomerObserver |}.
Definition driver2 : Observer := {| obs_id := 2; obs_class := DriverObserver |}.
Definition operator3 : Observer := {| obs_id := 3; obs_class := OperatorObserver |}.

Definition finished_booking : Booking.t :=
  Booking.mk 1 Completed 7 (Some 3) 1 20.

(** One manager with a customer and a driver attached, nothing published. *)
Definition two_subscribers : World :=
  after (attach 0%nat driver2) (after (attach 0%nat customer1) initial_world).

(** A manager whose [update_information] drew the value 1, nobody attached. *)
Definition state_one : World := after (update_information 0%nat 1) initial_world.

Definition requested_booking : Booking.t :=
  Booking.mk 1 Requested 7 None 1 20.

Definition its_location : Location.t :=
  Location.mk 1 1 [0; 0] [5; 5] [0; 0].

(** ** Runs of setter calls on a booking *)

(** The attribute a [Booking] setter assigns. *)
Inductive booking_field :=
  | FBookingId | FBookStatus | FCustomerId | FDriverId | FLocationId | FTravelTime.

Definition booking_target (op : Booking.mutation) : booking_field :=
  match op with
  | Booking.SetBookingId _ => FBookingId
  | Booking.SetBookStatus _ => FBookStatus
  | Booking.SetCustomerId _ => FCustomerId
  | Booking.SetDriverId _ => FDriverId
  | Booking.SetLocationId _ => FLocationId
  | Booking.SetTravelTime _ => FTravelTime
  end.

Fixpoint booking_run (ops : list Booking.mutation) (self : Booking.t) : outcome Booking.t :=
  match ops with
  | [] => Returns self
  | op :: rest =>
      match Booking.call op self with
      | Returns self' => booking_run rest self'
      | Raises e => Raises e
      end
  end.

(** The attribute a [Location] setter assigns. *)
Inductive location_field :=
  | FLocLocationId | FLocBookingId | FOrigin | FDestination | FCurrent.

Definition location_target (op : Location.mutation) : location_field :=
  match op with
  | Location.SetLocationId _ => FLocLocationId
  | Location.SetBookingId _ => FLocBookingId
  | Location.SetOriginLatlng _ => FOrigin
  | Location.SetDestinationLatlng _ => FDestination
  | Location.SetCurrentLatlng _ => FCurrent
  end.

(** ** class Chat *)
Module Chat.

(** A chat keeps the list object it was constructed with, not a copy: the
    attribute [chat_messages] is a reference into the store of list
    objects. *)
Record t := mk {
  chat_id : Z;
  booking_id : Z;
  customer_id : Z;
  operator_id : Z;
  driver_id : Z;
  chat_messages : nat
}.

Definition get_chat_id (self : t) := chat_id self.
Definition set_chat_id (self : t) (new_chat_id : Z) : t :=
  mk new_chat_id (booking_id self) (customer_id self) (operator_id self)
     (driver_id self) (chat_messages self).

Definition get_booking_id (self : t) := booking_id self.
Definition set_booking_id (self : t) (new_booking_id : Z) : t :=
  mk (chat_id self) new_booking_id (customer_id self) (operator_id self)
     (driver_id self) (chat_messages self).

Definition get_customer_id (self : t) := customer_id self.
Definition set_customer_id (self : t) (new_customer_id : Z) : t :=
  mk (chat_id self) (booking_id self) new_customer_id (operator_id self)
     (driver_id self) (chat_messages self).

Definition get_operator_id (self : t) := operator_id self.
Definition set_operator_id (self : t) (new_operator_id : Z) : t :=
  mk (chat_id self) (booking_id self) (customer_id self) new_operator_id
     (driver_id self) (chat_messages self).

Definition get_driver_id (self : t) := driver_id self.
Definition set_driver_id (self : t) (new_driver_id : Z) : t :=
  mk (chat_id self) (booking_id self) (customer_id self) (operator_id self)
     new_driver_id (chat_messages self).

(** [get_chat_messages] hands out the list object itself. *)
Definition get_chat_messages (self : t) : nat := chat_messages self.

(** The messages a reference denotes in a store. *)
Definition messages (ref : nat) (store : gmap nat (list string)) : option (list string) :=
  store !! ref.

(** [self.chat_messages.append(new_message)]: the list object is extended in
    place, the chat object itself is not assigned. *)
Definition add_new_chat_message (self : t) (new_message : string)
    (store : gmap nat (list string)) : gmap nat (list string) :=
  alter (λ l, l ++ [new_message]) (chat_messages self) store.

(** Several messages added one after the other. *)
Definition add_all (self : t) (new_messages : list string)
    (store : gmap nat (list string)) : gmap nat (list string) :=
  foldl (λ st m, add_new_chat_message self m st) store new_messages.

End Chat.

(** ** The factory of users *)

(** A value handed to a constructor. *)
Inductive value := VNone | VInt (z : Z) | VStr (s : string).

(** The three concrete subclasses of [User], with the attributes their
    constructors assign; [id] and [name] are those of [User.__init__]. *)
Inductive User :=
  | Driver (id name car_id admin_id : value)
  | Customer (id name customer_contact customer_address : value)
  | Operator (id name : value).

(** The constructor calls.  [Driver.__init__] and [Customer.__init__] take
    four arguments besides [self], [Operator.__init__] two, none with a
    default. *)
Definition Driver_new (args : list value) : outcome User :=
  match args with
  | [driver_id; driver_name; car_id; admin_id] =>
      Returns (Driver driver_id driver_name car_id admin_id)
  | _ => Raises TypeError
  end.

Definition Customer_new (args : list value) : outcome User :=
  match args with
  | [customer_id; customer_name; customer_contact; customer_address] =>
      Returns (Customer customer_id customer_name customer_contact customer_address)
  | _ => Raises TypeError
  end.

Definition Operator_new (args : list value) : outcome User :=
  match args with
  | [operator_id; operator_name] => Returns (Operator operator_id operator_name)
  | _ => Raises TypeError
  end.

Definition get_id (self : User) : value :=
  match self with
  | Driver id _ _ _ | Customer id _ _ _ | Operator id _ => id
  end.

Definition set_id (self : User) (new_id : value) : User :=
  match self with
  | Driver _ name car_id admin_id => Driver new_id name car_id admin_id
  | Customer _ name contact address => Customer new_id name contact address
  | Operator _ name => Operator new_id name
  end.

Definition get_name (self : User) : value :=
  match self with
  | Driver _ name _ _ | Customer _ name _ _ | Operator _ name => name
  end.

Definition set_name (self : User) (new_name : value) : User :=
  match self with
  | Driver id _ car_id admin_id => Driver id new_name car_id admin_id
  | Customer id _ contact address => Customer id new_name contact address
  | Operator id _ => Operator id new_name
  end.

Definition operation (self : User) : string :=
  match self with
  | Driver _ _ _ _ => "{Result of the Driver}"
  | Customer _ _ _ _ => "{Result of the Customer}"
  | Operator _ _ => "{Result of the Operator}"
  end.

(** The concrete creators. *)
Inductive Creator := DriverCreator | CustomerCreator | OperatorCreator.

(** Each [factory_method] calls its class with no argument. *)
Definition factory_method (self : Creator) : outcome User :=
  match self with
  | DriverCreator => Driver_new []
  | CustomerCreator => Customer_new []
  | OperatorCreator => Operator_new []
  end.

Definition some_operation (self : Creator) : outcome string :=
  match factory_method self with
  | Returns user =>
      Returns ("Creator: The same creator's code has just worked with "
               +:+ operation user)
  | Raises e => Raises e
  end.

(** ** Counting in the subscriber list *)

(** The number of entries of an observer in a list. *)
Definition occurrences (o : Observer) (l : list Observer) : nat :=
  length (filter (o =.) l).

(** Whether a trace shows the reaction of an observer class. *)
Definition reacted (c : ObserverClass) (t : list event) : bool :=
  bool_decide (Print (reaction_line c) ∈ t).

(** ** The manager over a store of objects *)

(** The model above fixes two things that the class leaves open: who can be
    subscribed, and where [self._observers] is found.  This module spells
    both out.  Subscribers are any objects that implement [Observer], list
    objects live in a store and are reached through references, and an
    attribute is looked up on the instance before it is looked up on the
    class. *)
Module Objects.

(** A subscriber: an instance of one of the three classes of the
    repository, or an instance of another subclass of [Observer] that
    implements [update(self)] as the interface declares it.  Of the latter
    kind the model has those whose [update] writes some lines and then
    returns or raises. *)
Inductive subscriber :=
  | Repo (observer : Observer)
  | Plain (id : nat) (lines : list string) (ending : option exn).

Global Instance subscriber_eq_dec : EqDecision subscriber.
Proof. solve_decision. Defined.

(** What a run leaves behind: the lines written, and a marker for every
    [observer.update()] that [notify] reaches. *)
Inductive event :=
  | Out (line : string)
  | Call (x : subscriber).

Global Instance event_eq_dec : EqDecision event.
Proof. solve_decision. Defined.

(** The store.  [lists] holds the list objects by address;
    [class_observers] is the list the class attribute [_observers] is bound
    to; [own_observers] and [own_state] are the attributes [_observers] and
    [_state] of the instances that have one of their own. *)
Record Store := {
  lists : gmap nat (list subscriber);
  class_observers : nat;
  own_observers : gmap Manager nat;
  own_state : gmap Manager Z;
  output : list event
}.

Definition M (A : Type) : Type := Store → outcome A * Store.

Global Instance M_ret : MRet M := λ A a s, (Returns a, s).
Global Instance M_bind : MBind M := λ A B k c s,
  match c s with
  | (Returns a, s') => k a s'
  | (Raises e, s') => (Raises e, s')
  end.

Definition raise {A} (e : exn) : M A := λ s, (Raises e, s).

Definition result {A} (c : M A) (s : Store) : outcome A := fst (c s).
Definition after {A} (c : M A) (s : Store) : Store := snd (c s).

(** The store with further events at the end of its output. *)
Definition log (evs : list event) (s : Store) : Store :=
  {| lists := lists s; class_observers := class_observers s;
     own_observers := own_observers s; own_state := own_state s;
     output := output s ++ evs |}.

Definition emit (ev : event) : M unit := λ s, (Returns tt, log [ev] s).

Definition print (line : string) : M unit := emit (Out line).

(** [self._observers]: the instance's own attribute when it has one, the
    class attribute otherwise.  The value is a reference to a list. *)
Definition observers_ref (self : Manager) (s : Store) : nat :=
  match own_observers s !! self with
  | Some ref => ref
  | None => class_observers s
  end.

Definition self_observers (self : Manager) : M nat := λ s,
  (Returns (observers_ref self s), s).

(** The elements of the list object at a reference. *)
Definition items (ref : nat) (s : Store) : list subscriber :=
  default [] (lists s !! ref).

Definition list_items (ref : nat) : M (list subscriber) := λ s,
  (Returns (items ref s), s).

Definition with_lists (f : gmap nat (list subscriber) → gmap nat (list subscriber))
    (s : Store) : Store :=
  {| lists := f (lists s); class_observers := class_observers s;
     own_observers := own_observers s; own_state := own_state s;
     output := output s |}.

(** [ref.append(x)]: the list object is extended in place. *)
Definition list_append (ref : nat) (x : subscriber) : M unit := λ s,
  (Returns tt, with_lists (alter (λ l, l ++ [x]) ref) s).

Fixpoint remove_first (x : subscriber) (l : list subscriber) : option (list subscriber) :=
  match l with
  | [] => None
  | y :: rest =>
      if decide (y = x) then Some rest
      else cons y <$> remove_first x rest
  end.

(** [ref.remove(x)]: the first element equal to [x] leaves the list object;
    [ValueError] when there is none. *)
Definition list_remove (ref : nat) (x : subscriber) : M unit := λ s,
  match remove_first x (items ref s) with
  | Some l' => (Returns tt, with_lists (insert ref l') s)
  | None => (Raises ValueError, s)
  end.

(** [self._state = v] *)
Definition setattr_state (self : Manager) (v : Z) : M unit := λ s,
  (Returns tt,
   {| lists := lists s; class_observers := class_observers s;
      own_observers := own_observers s;
      own_state := <[self := v]> (own_state s);
      output := output s |}).

Fixpoint for_each {A} (body : A → M unit) (l : list A) : M unit :=
  match l with
  | [] => mret tt
  | x :: rest => body x ;; for_each body rest
  end.

(** The statement [observer.update()] of [notify]: a call without
    arguments.  The [update] of the three repository classes takes the
    manager as a second parameter, so the call does not bind; a subclass
    that follows the interface runs its body. *)
Definition update (x : subscriber) : M unit :=
  emit (Call x) ;;
  match x with
  | Repo _ => raise TypeError
  | Plain _ lines ending =>
      for_each print lines ;;
      match ending with
      | Some e => raise e
      | None => mret tt
      end
  end.

Definition attach (self : Manager) (observer : subscriber) : M unit :=
  print "NotificationManager: Attached an observer." ;;
  ref ← self_observers self;
  list_append ref observer.

Definition detach (self : Manager) (observer : subscriber) : M unit :=
  ref ← self_observers self;
  list_remove ref observer.

Definition notify (self : Manager) : M unit :=
  print "NotificationManager: Notifying observers..." ;;
  ref ← self_observers self;
  l ← list_items ref;
  for_each update l.

Definition update_information (self : Manager) (r : Z) : M unit :=
  print (String "010"%char "NotificationManager: location updated.") ;;
  setattr_state self r ;;
  print ("NotificationManager: My state has just changed to: " +:+ pretty r) ;;
  notify self.

(** The store once the module has been loaded: the class statement has
    created one empty list and bound [_observers] to it; no instance has an
    attribute. *)
Definition initial_store : Store :=
  {| lists := {[ 0%nat := [] ]}; class_observers := 0%nat;
     own_observers := ∅; own_state := ∅; output := [] |}.

(** The calls a client can make on managers, and sessions of them. *)
Inductive request :=
  | Attach (self : Manager) (observer : subscriber)
  | Detach (self : Manager) (observer : subscriber)
  | Notify (self : Manager)
  | UpdateInformation (self : Manager) (r : Z).

Definition perform (c : request) : M unit :=
  match c with
  | Attach self observer => attach self observer
  | Detach self observer => detach self observer
  | Notify self => notify self
  | UpdateInformation self r => update_information self r
  end.

Fixpoint session (cs : list request) (s : Store) : Store :=
  match cs with
  | [] => s
  | c :: rest => session rest (after (perform c) s)
  end.

(** The same call made through another manager. *)
Definition through (m : Manager) (c : request) : request :=
  match c with
  | Attach _ observer => Attach m observer
  | Detach _ observer => Detach m observer
  | Notify _ => Notify m
  | UpdateInformation _ r => UpdateInformation m r
  end.

(** The subscribers a manager sees: the elements of the list its
    [_observers] resolves to. *)
Definition subscribers (self : Manager) (s : Store) : list subscriber :=
  items (observers_ref self s) s.

(** How the [update()] call on a subscriber ends: [None] when it returns. *)
Definition failure (x : subscriber) : option exn :=
  match x with
  | Repo _ => Some TypeError
  | Plain _ _ ending => ending
  end.

(** What serving one subscriber adds to the output. *)
Definition served (x : subscriber) : list event :=
  match x with
  | Repo _ => [Call x]
  | Plain _ lines _ => Call x :: (Out <$> lines)
  end.

(** The subscribers [notify] called [update()] on, in order. *)
Definition called (t : list event) : list subscriber :=
  omap (λ ev, match ev with Call x => Some x | Out _ => None end) t.

(** The lines written, in order. *)
Definition written (t : list event) : list string :=
  omap (λ ev, match ev with Out line => Some line | Call _ => None end) t.

(** Every instance finds [_observers] on the class, and the class
    attribute refers to a list of the store. *)
Definition class_only (s : Store) : Prop :=
  own_observers s = ∅ ∧ is_Some (lists s !! class_observers s).

End Objects.

(** The lines a trace of the first model shows. *)
Definition printed (t : list event) : list string :=
  omap (λ ev, match ev with Print line => Some line | Enter _ => None end) t.

(** A store stands for a world of the first model when every instance
    finds [_observers] on the class, the class's list holds instances of
    the three repository classes only, the same ones in the same order, and
    states and written lines agree. *)
Definition stands_for (s : Objects.Store) (w : World) : Prop :=
  Objects.own_observers s = ∅ ∧
  Objects.lists s !! Objects.class_observers s = Some (Objects.Repo <$> _observers w) ∧
  Objects.own_state s = instance_state w ∧
  Objects.written (Objects.output s) = printed (trace w).

(** A call of the first model, as a call on the store. *)
Definition on_store (c : request) : Objects.request :=
  match c with
  | Attach self observer => Objects.Attach self (Objects.Repo observer)
  | Detach self observer => Objects.Detach self (Objects.Repo observer)
  | Notify self => Objects.Notify self
  | UpdateInformation self r => Objects.UpdateInformation self r
  end.

(** Three observers of an application: two that print a line, one whose
    [update] raises. *)
Definition plain_a : Objects.subscriber := Objects.Plain 10 ["a: got it"] None.
Definition plain_b : Objects.subscriber := Objects.Plain 11 ["b: got it"] None.
Definition broken : Objects.subscriber := Objects.Plain 12 [] (Some ValueError).

(** A store in which manager 1 was given a list of its own. *)
Definition own_list : Objects.Store :=
  {| Objects.lists := {[ 0%nat := []; 1%nat := [] ]};
     Objects.class_observers := 0%nat;
     Objects.own_observers := {[ 1%nat := 1%nat ]};
     Objects.own_state := ∅;
     Objects.output := [] |}.

(** [plain_a], [broken] and [plain_b] attached in this order. *)
Definition one_broken : Objects.Store :=
  Objects.session
    [Objects.Attach 0%nat plain_a; Objects.Attach 0%nat broken; Objects.Attach 0%nat plain_b]
    Objects.initial_store.

(** * Properties *)

(** ** Bookings and locations *)

(** C1 (as stated, refuted): a booking in the terminal state [Completed]
    accepts [set_book_status]; the call returns and the status becomes
    [Requested]. *)
Lemma completed_booking_can_be_reopened :
  is_terminal (Booking.book_status finished_booking) = true ∧
  Booking.call (Booking.SetBookStatus Requested) finished_booking
    = Returns (Booking.mk 1 Requested 7 (Some 3) 1 20) ∧
  Booking.book_status (Booking.mk 1 Requested 7 (Some 3) 1 20)
    ≠ Booking.book_status finished_booking.
Proof. repeat split; discriminate. Qed.

(** C1 (amended): no setter of [Booking] looks at the status.  Every mutation
    returns on every booking, terminal or not, and [set_book_status] stores
    the status it is given while the five other fields keep their values. *)
Theorem booking_setters_have_no_guard (b : Booking.t) :
  (∀ op, ∃ b', Booking.call op b = Returns b') ∧
  (∀ s, ∃ b', Booking.call (Booking.SetBookStatus s) b = Returns b' ∧
     Booking.book_status b' = s ∧
     Booking.booking_id b' = Booking.booking_id b ∧
     Booking.customer_id b' = Booking.customer_id b ∧
     Booking.driver_id b' = Booking.driver_id b ∧
     Booking.location_id b' = Booking.location_id b ∧
     Booking.travel_time b' = Booking.travel_time b).
Proof.
  split.
  - intros op. destruct op; eexists; reflexivity.
  - intros s. exists (Booking.set_book_status b s). repeat split.
Qed.

(** C2 (as stated, refuted): the booking is [Requested], and setting the
    current coordinate of its location returns with the coordinate changed. *)
Lemma current_latlng_set_while_requested :
  Booking.book_status requested_booking = Requested ∧
  Location.booking_id its_location = Booking.booking_id requested_booking ∧
  Location.call (Location.SetCurrentLatlng [1; 1]) its_location
    = Returns (Location.mk 1 1 [0; 0] [5; 5] [1; 1]) ∧
  Location.current_latlng (Location.mk 1 1 [0; 0] [5; 5] [1; 1])
    ≠ Location.current_latlng its_location.
Proof. repeat split; discriminate. Qed.

(** C2 (amended): [set_current_latlng] takes the location and the new
    coordinate only; it returns on every location, stores the coordinate and
    leaves the other four fields alone. *)
Theorem set_current_latlng_always_succeeds (l : Location.t) (c : latlng) :
  ∃ l', Location.call (Location.SetCurrentLatlng c) l = Returns l' ∧
    Location.current_latlng l' = c ∧
    Location.location_id l' = Location.location_id l ∧
    Location.booking_id l' = Location.booking_id l ∧
    Location.origin_latlng l' = Location.origin_latlng l ∧
    Location.destination_latlng l' = Location.destination_latlng l.
Proof. exists (Location.set_current_latlng l c). repeat split. Qed.

(** C6 (as stated, refuted): after creation, [set_origin_latlng] and
    [set_destination_latlng] replace the two coordinates. *)
Lemma endpoints_overwritten_after_creation :
  Location.run [Location.SetOriginLatlng [9; 9]; Location.SetDestinationLatlng [8; 8]]
    its_location = Returns (Location.mk 1 1 [9; 9] [8; 8] [0; 0]) ∧
  Location.origin_latlng (Location.mk 1 1 [9; 9] [8; 8] [0; 0])
    ≠ Location.origin_latlng its_location ∧
  Location.destination_latlng (Location.mk 1 1 [9; 9] [8; 8] [0; 0])
    ≠ Location.destination_latlng its_location.
Proof. repeat split; discriminate. Qed.

Lemma call_keeps_endpoints (op : Location.mutation) (l : Location.t) :
  Location.keeps_endpoints op = true →
  ∃ l', Location.call op l = Returns l' ∧
    Location.origin_latlng l' = Location.origin_latlng l ∧
    Location.destination_latlng l' = Location.destination_latlng l.
Proof. destruct op; intros Hop; try discriminate Hop; eexists; repeat split. Qed.

Lemma run_keeps_endpoints (ops : list Location.mutation) :
  Forall (λ op, Location.keeps_endpoints op = true) ops →
  ∀ l, ∃ l', Location.run ops l = Returns l' ∧
    Location.origin_latlng l' = Location.origin_latlng l ∧
    Location.destination_latlng l' = Location.destination_latlng l.
Proof.
  induction 1 as [|op ops Hop _ IH]; intros l.
  - exists l. repeat split.
  - destruct (call_keeps_endpoints op l Hop) as (l1 & Hcall & Ho & Hd).
    destruct (IH l1) as (l2 & Hrun & Ho2 & Hd2).
    exists l2. simpl. rewrite Hcall. repeat split; congruence.
Qed.

Lemma run_snoc (ops : list Location.mutation) (op : Location.mutation) (l l1 : Location.t) :
  Location.run ops l = Returns l1 →
  Location.run (ops ++ [op]) l = Location.call op l1.
Proof.
  revert l. induction ops as [|o ops IH]; intros l; simpl.
  - intros [= ->]. by destruct (Location.call op l1).
  - destruct (Location.call o l) as [l'|e]; [apply IH | discriminate].
Qed.

(** C6 (amended): the two endpoints change through their own setters and
    through nothing else.  Any run of the other setters returns with origin
    and destination as they were, and after such a run either endpoint
    setter still overwrites its coordinate with whatever it is given. *)
Theorem endpoints_change_only_through_their_setters
    (ops : list Location.mutation) (l : Location.t)
    (Hops : Forall (λ op, Location.keeps_endpoints op = true) ops) :
  (∃ l', Location.run ops l = Returns l' ∧
     Location.origin_latlng l' = Location.origin_latlng l ∧
     Location.destination_latlng l' = Location.destination_latlng l) ∧
  (∀ c, ∃ l', Location.run (ops ++ [Location.SetOriginLatlng c]) l = Returns l' ∧
     Location.origin_latlng l' = c ∧
     Location.destination_latlng l' = Location.destination_latlng l) ∧
  (∀ c, ∃ l', Location.run (ops ++ [Location.SetDestinationLatlng c]) l = Returns l' ∧
     Location.origin_latlng l' = Location.origin_latlng l ∧
     Location.destination_latlng l' = c).
Proof.
  destruct (run_keeps_endpoints ops Hops l) as (l1 & Hrun & Ho & Hd).
  split; [by exists l1|].
  split; intros c; eexists; (split; [rewrite (run_snoc _ _ _ _ Hrun); reflexivity|]);
    simpl; auto.
Qed.

Lemma endpoints_change_only_through_their_setters_witness :
  Forall (λ op, Location.keeps_endpoints op = true)
    [Location.SetCurrentLatlng [1; 1]; Location.SetBookingId 4] ∧
  ∃ l', Location.run [Location.SetCurrentLatlng [1; 1]; Location.SetBookingId 4]
          its_location = Returns l' ∧
    Location.origin_latlng l' = [0; 0] ∧ Location.destination_latlng l' = [5; 5].
Proof.
  assert (H : Forall (λ op, Location.keeps_endpoints op = true)
                [Location.SetCurrentLatlng [1; 1]; Location.SetBookingId 4])
    by (repeat constructor).
  split; [exact H|].
  exact (proj1 (endpoints_change_only_through_their_setters _ its_location H)).
Defined.

(** ** The monad and the loop *)

Lemma log_log (a b : list event) (w : World) : log b (log a w) = log (a ++ b) w.
Proof. unfold log; simpl. by rewrite <- (assoc_L (++)). Qed.

Lemma log_nil (w : World) : log [] w = w.
Proof. destruct w; unfold log; simpl. by rewrite (right_id_L [] (++)). Qed.

Lemma bind_returns {A B} (c : M A) (k : A → M B) (w w' : World) (a : A) :
  c w = (Returns a, w') → (c ≫= k) w = k a w'.
Proof. intros H. unfold mbind, M_bind. by rewrite H. Qed.

Lemma bind_raises {A B} (c : M A) (k : A → M B) (w w' : World) (e : exn) :
  c w = (Raises e, w') → (c ≫= k) w = (Raises e, w').
Proof. intros H. unfold mbind, M_bind. by rewrite H. Qed.

(** The [for] statement has no handler: when the body raises on an element,
    the loop ends there with that exception and the elements after it are
    not visited. *)
Lemma for_each_raises {A} (body : A → M unit) (pre : list A) (x : A) (post : list A)
    (w w1 w2 : World) (e : exn) :
  for_each body pre w = (Returns tt, w1) →
  body x w1 = (Raises e, w2) →
  for_each body (pre ++ x :: post) w = (Raises e, w2).
Proof.
  revert w. induction pre as [|y pre IH]; intros w Hpre Hx; simpl in *.
  - injection Hpre as <-. by apply bind_raises.
  - unfold mbind, M_bind in *. destruct (body y w) as [[[]|e'] w'].
    + by apply IH.
    + discriminate Hpre.
Qed.

Lemma for_each_all_return {A} (body : A → M unit) (l : list A) (w : World) :
  (∀ x w0, x ∈ l → ∃ w1, body x w0 = (Returns tt, w1)) →
  ∃ w', for_each body l w = (Returns tt, w').
Proof.
  revert w. induction l as [|x l IH]; intros w Hbody; simpl.
  - by exists w.
  - destruct (Hbody x w) as [w1 H1]; [left|].
    destruct (IH w1) as [w2 H2].
    { intros y w0 Hy. apply Hbody. by right. }
    exists w2. by rewrite (bind_returns _ _ _ _ _ H1).
Qed.

(** ** Calls that do not bind *)

(** [update] called without the manager never reaches a method body. *)
Lemma update_without_argument (o : Observer) (w : World) :
  update o [] w = (Raises TypeError, w).
Proof. reflexivity. Qed.

Lemma notify_unfold (self : Manager) (w : World) :
  notify self w =
  for_each (λ observer, update observer []) (_observers w)
    (log [Print "NotificationManager: Notifying observers..."] w).
Proof. reflexivity. Qed.

Lemma notify_no_subscriber (self : Manager) (w : World) :
  _observers w = [] →
  notify self w = (Returns tt, log [Print "NotificationManager: Notifying observers..."] w).
Proof. intros H. rewrite notify_unfold, H. reflexivity. Qed.

Lemma notify_some_subscriber (self : Manager) (w : World) :
  _observers w ≠ [] →
  notify self w = (Raises TypeError, log [Print "NotificationManager: Notifying observers..."] w).
Proof.
  intros H. rewrite notify_unfold.
  destruct (_observers w) as [|o rest]; [done|reflexivity].
Qed.

Lemma entered_app (a b : list event) : entered (a ++ b) = entered a ++ entered b.
Proof. apply omap_app. Qed.

(** ** Subscribing *)

Lemma attach_spec (self : Manager) (o : Observer) (w : World) :
  attach self o w =
  (Returns tt,
   {| _observers := _observers w ++ [o];
      instance_state := instance_state w;
      trace := trace w ++ [Print "NotificationManager: Attached an observer."] |}).
Proof. reflexivity. Qed.

(** C3 (as stated, refuted): attaching the same observer twice leaves two
    entries in the list, attaching it once leaves one. *)
Lemma attach_twice_is_not_attach_once :
  _observers (after (attach 0%nat customer1) (after (attach 0%nat customer1) initial_world))
    = [customer1; customer1] ∧
  _observers (after (attach 0%nat customer1) initial_world) = [customer1] ∧
  _observers (after (attach 0%nat customer1) (after (attach 0%nat customer1) initial_world))
    ≠ _observers (after (attach 0%nat customer1) initial_world).
Proof. repeat split; discriminate. Qed.

(** C3 (amended): [attach] always returns and appends its argument at the
    end of the list without looking for it there; attaching the same
    observer twice adds two entries, so the number of its occurrences grows
    by two. *)
Theorem attach_appends_unconditionally (self : Manager) (o : Observer) (w : World) :
  result (attach self o) w = Returns tt ∧
  _observers (after (attach self o) w) = _observers w ++ [o] ∧
  _observers (after (attach self o) (after (attach self o) w)) = _observers w ++ [o; o] ∧
  length (filter (o =.) (_observers (after (attach self o) (after (attach self o) w))))
    = S (S (length (filter (o =.) (_observers w)))).
Proof.
  unfold result, after. rewrite !attach_spec. simpl.
  repeat split.
  - by rewrite <- (assoc_L (++)).
  - rewrite !filter_app, !length_app. simpl.
    rewrite !filter_cons_True by done. simpl. lia.
Qed.

(** ** Unsubscribing *)

Lemma list_remove_absent (x : Observer) (l : list Observer) :
  (x ∉ l) → list_remove x l = None.
Proof.
  induction l as [|y l IH]; intros Hx; simpl; [done|].
  apply not_elem_of_cons in Hx as [Hne Hl].
  rewrite decide_False by congruence. by rewrite IH.
Qed.

Lemma list_remove_present (x : Observer) (l : list Observer) :
  x ∈ l → ∃ l1 l2, l = l1 ++ x :: l2 ∧ (x ∉ l1) ∧ list_remove x l = Some (l1 ++ l2).
Proof.
  induction l as [|y l IH]; intros Hx; [by apply elem_of_nil in Hx|].
  simpl. destruct (decide (y = x)) as [->|Hne].
  - exists [], l. repeat split. apply not_elem_of_nil.
  - apply elem_of_cons in Hx as [->|Hx]; [done|].
    destruct (IH Hx) as (l1 & l2 & -> & Hl1 & Hrm).
    exists (y :: l1), l2. rewrite Hrm. repeat split.
    apply not_elem_of_cons. split; [congruence|done].
Qed.

(** C7 (as stated, refuted): nobody is subscribed, and [detach] raises
    [ValueError] instead of returning. *)
Lemma detach_of_stranger_raises :
  (customer1 ∉ _observers initial_world) ∧
  result (detach 0%nat customer1) initial_world = Raises ValueError ∧
  result (detach 0%nat customer1) initial_world ≠ Returns tt.
Proof. repeat split; [apply not_elem_of_nil | discriminate]. Qed.

(** C7 (amended): [detach] of an observer that is not in the list raises
    [ValueError]; the list, the instance states and the output are left as
    they were. *)
Theorem detach_absent_raises_ValueError (self : Manager) (o : Observer) (w : World)
    (Habsent : o ∉ _observers w) :
  detach self o w = (Raises ValueError, w).
Proof.
  unfold detach, mbind, M_bind, self_observers.
  by rewrite (list_remove_absent _ _ Habsent).
Qed.

Lemma detach_absent_raises_ValueError_witness :
  (operator3 ∉ _observers two_subscribers) ∧
  detach 0%nat operator3 two_subscribers = (Raises ValueError, two_subscribers).
Proof.
  assert (H : operator3 ∉ _observers two_subscribers).
  { apply (bool_decide_unpack _). vm_compute. exact I. }
  split; [exact H | exact (detach_absent_raises_ValueError 0%nat operator3 two_subscribers H)].
Defined.

(** X1: [detach] of a subscribed observer returns, and removes its first
    entry and only that one: the entries before and after it keep their
    order, and later entries of the same observer stay. *)
Lemma detach_present (self : Manager) (o : Observer) (w : World) :
  o ∈ _observers w →
  ∃ l1 l2, _observers w = l1 ++ o :: l2 ∧ (o ∉ l1) ∧
    detach self o w =
    (Returns tt,
     {| _observers := l1 ++ l2; instance_state := instance_state w; trace := trace w |}).
Proof.
  intros Hin. destruct (list_remove_present _ _ Hin) as (l1 & l2 & Hl & Hl1 & Hrm).
  exists l1, l2. repeat split; [done..|].
  unfold detach, mbind, M_bind, self_observers. by rewrite Hrm.
Qed.

(** ** Publishing *)

Lemma update_information_unfold (self : Manager) (r : Z) (w : World) :
  update_information self r w =
  notify self
    {| _observers := _observers w;
       instance_state := <[self := r]> (instance_state w);
       trace := trace w ++
         [Print (String "010"%char "NotificationManager: location updated.");
          Print ("NotificationManager: My state has just changed to: " +:+ pretty r)] |}.
Proof.
  unfold update_information, mbind, M_bind, print, emit, setattr_state, log. simpl.
  by rewrite <- (assoc_L (++)).
Qed.

(** C4 (the code at the failing input): with a customer and a driver
    subscribed, [notify] prints its own line, raises [TypeError] on the first
    [update()] and no observer's [update] body runs. *)
Theorem notify_reaches_no_subscriber :
  _observers two_subscribers = [customer1; driver2] ∧
  result (notify 0%nat) two_subscribers = Raises TypeError ∧
  trace (after (notify 0%nat) two_subscribers)
    = trace two_subscribers ++ [Print "NotificationManager: Notifying observers..."] ∧
  entered (trace (after (notify 0%nat) two_subscribers)) = [].
Proof. repeat split. Qed.

(** C9: as soon as one observer is subscribed, [notify] raises [TypeError]
    having printed its own line and nothing else, and so does
    [update_information] after its two lines and the assignment of [_state];
    in neither call does an [update] body start, so no observer reacts. *)
Theorem notify_raises_TypeError (self : Manager) (r : Z) (w : World)
    (Hsome : _observers w ≠ []) :
  notify self w
    = (Raises TypeError,
       {| _observers := _observers w;
          instance_state := instance_state w;
          trace := trace w ++ [Print "NotificationManager: Notifying observers..."] |}) ∧
  update_information self r w
    = (Raises TypeError,
       {| _observers := _observers w;
          instance_state := <[self := r]> (instance_state w);
          trace := trace w ++
            [Print (String "010"%char "NotificationManager: location updated.");
             Print ("NotificationManager: My state has just changed to: " +:+ pretty r);
             Print "NotificationManager: Notifying observers..."] |}) ∧
  entered (trace (after (notify self) w)) = entered (trace w) ∧
  entered (trace (after (update_information self r) w)) = entered (trace w).
Proof.
  assert (Hn : ∀ w0, _observers w0 ≠ [] →
            notify self w0 = (Raises TypeError,
              log [Print "NotificationManager: Notifying observers..."] w0))
    by (intros w0; apply notify_some_subscriber).
  unfold after. rewrite update_information_unfold, !Hn by done.
  unfold log; simpl. rewrite <- !(assoc_L (++)). simpl.
  repeat split; rewrite entered_app; simpl; by rewrite (right_id_L [] (++)).
Qed.

Lemma notify_raises_TypeError_witness :
  _observers two_subscribers ≠ [] ∧
  result (notify 0%nat) two_subscribers = Raises TypeError ∧
  result (update_information 0%nat 7) two_subscribers = Raises TypeError.
Proof.
  assert (H : _observers two_subscribers ≠ []) by discriminate.
  split; [exact H|].
  destruct (notify_raises_TypeError 0%nat 7 two_subscribers H) as (Hn & Hu & _).
  unfold result. rewrite Hn, Hu. split; reflexivity.
Defined.

(** ** Reactions *)

Lemma getattr_state_assigned (m : Manager) (w : World) (s : Z) :
  instance_state w !! m = Some s → getattr_state m w = (Returns (Some s), w).
Proof. intros H. unfold getattr_state. by rewrite H. Qed.

Lemma getattr_state_unassigned (m : Manager) (w : World) :
  instance_state w !! m = None → getattr_state m w = (Returns None, w).
Proof. intros H. unfold getattr_state. by rewrite H. Qed.

(** The guard shared by the driver's and the operator's [update]. *)
Lemma zero_or_at_least_two (s : Z) :
  (s =? 0) || (s >=? 2) = bool_decide (s = 0 ∨ 2 ≤ s).
Proof.
  symmetry.
  destruct (Z.eqb_spec s 0) as [Hz|Hnz], (Z.geb_spec s 2) as [Hge|Hlt]; cbn [orb];
    first [apply bool_decide_eq_true_2; lia | apply bool_decide_eq_false_2; lia].
Qed.

Lemma DriverObserver_update_assigned (m : Manager) (w : World) (s : Z) :
  instance_state w !! m = Some s →
  DriverObserver_update m w
  = (Returns tt,
     log (if (s =? 0) || (s >=? 2)
          then [Print "DriverObserver: Reacted to the event"] else []) w).
Proof.
  intros H. unfold DriverObserver_update.
  rewrite (bind_returns _ _ _ _ _ (getattr_state_assigned _ _ _ H)). simpl.
  destruct (s =? 0); [reflexivity|].
  rewrite (bind_returns _ _ _ _ _ (getattr_state_assigned _ _ _ H)).
  unfold py_ge, mbind, M_bind, mret, M_ret. simpl.
  destruct (s >=? 2); [reflexivity|]. by rewrite log_nil.
Qed.

Lemma OperatorObserver_update_assigned (m : Manager) (w : World) (s : Z) :
  instance_state w !! m = Some s →
  OperatorObserver_update m w
  = (Returns tt,
     log (if (s =? 0) || (s >=? 2)
          then [Print "OperatorObserver: Reacted to the event"] else []) w).
Proof.
  intros H. unfold OperatorObserver_update.
  rewrite (bind_returns _ _ _ _ _ (getattr_state_assigned _ _ _ H)). simpl.
  destruct (s =? 0); [reflexivity|].
  rewrite (bind_returns _ _ _ _ _ (getattr_state_assigned _ _ _ H)).
  unfold py_ge, mbind, M_bind, mret, M_ret. simpl.
  destruct (s >=? 2); [reflexivity|]. by rewrite log_nil.
Qed.

(** The customer's guard, for comparison: it reacts below 3. *)
Lemma CustomerObserver_update_assigned (m : Manager) (w : World) (s : Z) :
  instance_state w !! m = Some s →
  CustomerObserver_update m w
  = (Returns tt,
     log (if s <? 3 then [Print "CustomerObserver: Reacted to the event"] else []) w).
Proof.
  intros H. unfold CustomerObserver_update.
  rewrite (bind_returns _ _ _ _ _ (getattr_state_assigned _ _ _ H)).
  unfold py_lt, mbind, M_bind, mret, M_ret. simpl.
  destruct (s <? 3); [reflexivity|]. by rewrite log_nil.
Qed.

(** C8 (as stated, refuted): the manager's state is 1; a driver and an
    operator are each handed the event and neither prints its reaction. *)
Lemma driver_and_operator_silent_at_one :
  result (getattr_state 0%nat) state_one = Returns (Some 1) ∧
  update driver2 [0%nat] state_one = (Returns tt, log [Enter driver2] state_one) ∧
  update operator3 [0%nat] state_one = (Returns tt, log [Enter operator3] state_one) ∧
  (Print (reaction_line DriverObserver)
     ∉ trace (after (update driver2 [0%nat]) state_one)) ∧
  (Print (reaction_line OperatorObserver)
     ∉ trace (after (update operator3 [0%nat]) state_one)).
Proof.
  repeat split; apply (bool_decide_unpack _); vm_compute; exact I.
Qed.

(** C8 (amended): a driver or operator observer that is handed a manager
    whose [_state] is the integer [s] returns, and prints its reaction
    exactly when [s] is 0 or at least 2; at 1, and at negative values, it
    stays silent. *)
Theorem driver_operator_react_unless_state_one
    (o : Observer) (m : Manager) (w : World) (s : Z)
    (Hclass : obs_class o ≠ CustomerObserver)
    (Hstate : instance_state w !! m = Some s) :
  update o [m] w
  = (Returns tt,
     log (Enter o :: if bool_decide (s = 0 ∨ 2 ≤ s)
                     then [Print (reaction_line (obs_class o))] else []) w).
Proof.
  unfold update.
  rewrite (bind_returns (emit (Enter o)) _ w (log [Enter o] w) tt) by reflexivity.
  rewrite <- zero_or_at_least_two.
  destruct (obs_class o); [done| |].
  - rewrite (DriverObserver_update_assigned m _ s) by exact Hstate.
    by rewrite log_log.
  - rewrite (OperatorObserver_update_assigned m _ s) by exact Hstate.
    by rewrite log_log.
Qed.

Lemma driver_operator_react_unless_state_one_witness :
  obs_class driver2 ≠ CustomerObserver ∧
  instance_state state_one !! 0%nat = Some 1 ∧
  update driver2 [0%nat] state_one = (Returns tt, log [Enter driver2] state_one).
Proof.
  assert (Hc : obs_class driver2 ≠ CustomerObserver) by discriminate.
  assert (Hs : instance_state state_one !! 0%nat = Some 1) by reflexivity.
  split; [exact Hc|]. split; [exact Hs|].
  exact (driver_operator_react_unless_state_one driver2 0%nat state_one 1 Hc Hs).
Defined.

(** X9: handed a manager on which [update_information] never ran, so that
    [_state] is still the class attribute [None], the [update] of every
    observer class starts and then raises [TypeError] at its ordering
    comparison, printing nothing. *)
Lemma update_before_first_state (o : Observer) (m : Manager) (w : World) :
  instance_state w !! m = None →
  update o [m] w = (Raises TypeError, log [Enter o] w).
Proof.
  intros Hnone. unfold update.
  rewrite (bind_returns (emit (Enter o)) _ w (log [Enter o] w) tt) by reflexivity.
  assert (Hget : getattr_state m (log [Enter o] w) = (Returns None, log [Enter o] w))
    by (by apply getattr_state_unassigned).
  destruct (obs_class o);
    unfold CustomerObserver_update, DriverObserver_update, OperatorObserver_update;
    rewrite (bind_returns _ _ _ _ _ Hget); simpl;
    try rewrite (bind_returns _ _ _ _ _ Hget); reflexivity.
Qed.

(** ** One state for each manager *)

(** X5: [_state], unlike the list, lives on the instance: the value that
    [update_information] assigns through one manager is not seen through
    another. *)
Lemma state_is_per_instance (m1 m2 : Manager) (r : Z) (w : World) :
  m1 ≠ m2 →
  result (getattr_state m2) (after (update_information m1 r) w)
  = result (getattr_state m2) w.
Proof.
  intros Hne. unfold result, after. rewrite update_information_unfold, notify_unfold.
  set (body := λ observer, update observer []).
  assert (Hloop : ∀ l w0, instance_state (snd (for_each body l w0)) = instance_state w0).
  { intros [|o l] w0; reflexivity. }
  unfold getattr_state; simpl. rewrite Hloop. simpl.
  by rewrite lookup_insert_ne.
Qed.

(** * Further properties of the code *)

(** ** The subscriber list under attach and detach *)

Lemma detach_present_witness :
  (customer1 ∈ _observers two_subscribers) ∧
  ∃ l1 l2, _observers two_subscribers = l1 ++ customer1 :: l2 ∧ (customer1 ∉ l1) ∧
    detach 0%nat customer1 two_subscribers =
    (Returns tt,
     {| _observers := l1 ++ l2; instance_state := instance_state two_subscribers;
        trace := trace two_subscribers |}).
Proof.
  assert (H : customer1 ∈ _observers two_subscribers).
  { apply (bool_decide_unpack _). vm_compute. exact I. }
  split; [exact H | exact (detach_present 0%nat customer1 two_subscribers H)].
Defined.

Lemma state_is_per_instance_witness :
  (0%nat : Manager) ≠ 1%nat ∧
  result (getattr_state 1%nat) (after (update_information 0%nat 7) initial_world)
  = result (getattr_state 1%nat) initial_world.
Proof.
  assert (H : (0%nat : Manager) ≠ 1%nat) by discriminate.
  split; [exact H | exact (state_is_per_instance 0%nat 1%nat 7 initial_world H)].
Defined.

Lemma update_before_first_state_witness :
  instance_state two_subscribers !! 0%nat = None ∧
  update customer1 [0%nat] two_subscribers
  = (Raises TypeError, log [Enter customer1] two_subscribers).
Proof.
  assert (H : instance_state two_subscribers !! 0%nat = None) by reflexivity.
  split; [exact H | exact (update_before_first_state customer1 0%nat two_subscribers H)].
Defined.

Lemma list_remove_first (x : Observer) (l t : list Observer) :
  (x ∉ l) → list_remove x (l ++ x :: t) = Some (l ++ t).
Proof.
  induction l as [|y l IH]; intros Hx; simpl.
  - by rewrite decide_True.
  - apply not_elem_of_cons in Hx as [Hne Hl].
    rewrite decide_False by congruence. by rewrite IH.
Qed.

Lemma detach_spec (self : Manager) (o : Observer) (w : World) (l' : list Observer) :
  list_remove o (_observers w) = Some l' →
  detach self o w =
  (Returns tt,
   {| _observers := l'; instance_state := instance_state w; trace := trace w |}).
Proof. intros H. unfold detach, mbind, M_bind, self_observers. by rewrite H. Qed.

(** X2: an observer that was not subscribed is subscribed by [attach] and
    unsubscribed again by [detach], also when the two calls go through
    different managers: [detach] returns and the list is the one before the
    [attach]. *)
Theorem attach_then_detach_restores_list
    (m1 m2 : Manager) (o : Observer) (w : World) (Hnew : o ∉ _observers w) :
  result (detach m2 o) (after (attach m1 o) w) = Returns tt ∧
  _observers (after (detach m2 o) (after (attach m1 o) w)) = _observers w.
Proof.
  unfold result, after. rewrite attach_spec.
  rewrite (detach_spec m2 o _ (_observers w)); [done|].
  simpl. rewrite (list_remove_first o (_observers w) []) by done.
  by rewrite (right_id_L [] (++)).
Qed.

Lemma attach_then_detach_restores_list_witness :
  (operator3 ∉ _observers two_subscribers) ∧
  result (detach 1%nat operator3) (after (attach 0%nat operator3) two_subscribers)
    = Returns tt ∧
  _observers (after (detach 1%nat operator3) (after (attach 0%nat operator3) two_subscribers))
    = _observers two_subscribers.
Proof.
  assert (H : operator3 ∉ _observers two_subscribers).
  { apply (bool_decide_unpack _). vm_compute. exact I. }
  split; [exact H|].
  exact (attach_then_detach_restores_list 0%nat 1%nat operator3 two_subscribers H).
Defined.

(** X3: an observer attached twice has to be detached twice.  Starting from a
    list without it, two [attach] calls followed by one [detach] leave it
    subscribed once, the second [detach] restores the list, and a third one
    raises [ValueError]. *)
Theorem double_attach_needs_double_detach
    (self : Manager) (o : Observer) (w : World) (Hnew : o ∉ _observers w) :
  let w2 := after (attach self o) (after (attach self o) w) in
  let w1 := after (detach self o) w2 in
  let w0 := after (detach self o) w1 in
  result (detach self o) w2 = Returns tt ∧
  _observers w1 = _observers w ++ [o] ∧
  result (detach self o) w1 = Returns tt ∧
  _observers w0 = _observers w ∧
  result (detach self o) w0 = Raises ValueError.
Proof.
  intros w2 w1 w0.
  assert (H2 : _observers w2 = _observers w ++ [o; o]).
  { unfold w2, after. rewrite !attach_spec. simpl. by rewrite <- (assoc_L (++)). }
  assert (Hd2 : detach self o w2 =
    (Returns tt, {| _observers := _observers w ++ [o];
                    instance_state := instance_state w2; trace := trace w2 |})).
  { apply detach_spec. rewrite H2. by apply list_remove_first. }
  assert (H1 : _observers w1 = _observers w ++ [o]).
  { unfold w1, after. by rewrite Hd2. }
  assert (Hd1 : detach self o w1 =
    (Returns tt, {| _observers := _observers w;
                    instance_state := instance_state w1; trace := trace w1 |})).
  { apply detach_spec. rewrite H1.
    rewrite (list_remove_first o (_observers w) []) by done.
    by rewrite (right_id_L [] (++)). }
  assert (H0 : _observers w0 = _observers w).
  { unfold w0, after. by rewrite Hd1. }
  repeat split.
  - unfold result. by rewrite Hd2.
  - exact H1.
  - unfold result. by rewrite Hd1.
  - exact H0.
  - unfold result, detach, mbind, M_bind, self_observers.
    rewrite list_remove_absent; [done|]. by rewrite H0.
Qed.

Lemma double_attach_needs_double_detach_witness :
  (customer1 ∉ _observers initial_world) ∧
  result (detach 0%nat customer1)
    (after (detach 0%nat customer1)
       (after (detach 0%nat customer1)
          (after (attach 0%nat customer1) (after (attach 0%nat customer1) initial_world))))
  = Raises ValueError.
Proof.
  assert (H : customer1 ∉ _observers initial_world) by apply not_elem_of_nil.
  split; [exact H|].
  exact (proj2 (proj2 (proj2 (proj2
    (double_attach_needs_double_detach 0%nat customer1 initial_world H))))).
Defined.

(** ** Publishing, as far as it gets *)

Lemma perform_enters_nothing (c : request) (w : World) :
  entered (trace (after (perform c) w)) = entered (trace w).
Proof.
  destruct c as [m o|m o|m|m r]; unfold perform.
  - unfold after. rewrite attach_spec. simpl. rewrite entered_app. simpl.
    by rewrite (right_id_L [] (++)).
  - unfold after, detach, mbind, M_bind, self_observers.
    by destruct (list_remove o (_observers w)).
  - unfold after. rewrite notify_unfold.
    destruct (_observers w); simpl; rewrite entered_app; simpl;
      by rewrite (right_id_L [] (++)).
  - unfold after. rewrite update_information_unfold, notify_unfold. simpl.
    destruct (_observers w); simpl; rewrite !entered_app; simpl;
      by rewrite !(right_id_L [] (++)).
Qed.

(** X8: with the three repository classes as the only observers, no
    observer is ever reached through the manager's methods.  In any
    sequence of [attach], [detach], [notify] and [update_information]
    calls on observers of these classes, on any managers and with any
    drawn values, no [update] body starts. *)
Theorem session_enters_no_update (cs : list request) (w : World) :
  entered (trace (session cs w)) = entered (trace w).
Proof.
  revert w. induction cs as [|c cs IH]; intros w; simpl; [done|].
  by rewrite IH, perform_enters_nothing.
Qed.

(** ** The observers' guards *)

Lemma update_enters (o : Observer) (m : Manager) (w : World) :
  update o [m] w =
  match obs_class o with
  | CustomerObserver => CustomerObserver_update m (log [Enter o] w)
  | DriverObserver => DriverObserver_update m (log [Enter o] w)
  | OperatorObserver => OperatorObserver_update m (log [Enter o] w)
  end.
Proof. unfold update, mbind, M_bind, emit. by destruct (obs_class o). Qed.

(** X10: a customer observer that is handed a manager whose [_state] is the
    integer [s] returns, and prints its reaction exactly when [s] is below
    3. *)
Theorem customer_reacts_below_three
    (o : Observer) (m : Manager) (w : World) (s : Z)
    (Hclass : obs_class o = CustomerObserver)
    (Hstate : instance_state w !! m = Some s) :
  update o [m] w
  = (Returns tt,
     log (Enter o :: if bool_decide (s < 3)
                     then [Print "CustomerObserver: Reacted to the event"] else []) w).
Proof.
  rewrite update_enters, Hclass.
  rewrite (CustomerObserver_update_assigned m _ s) by exact Hstate.
  rewrite log_log. simpl.
  destruct (Z.ltb_spec s 3).
  - by rewrite bool_decide_eq_true_2.
  - by rewrite bool_decide_eq_false_2 by lia.
Qed.

Lemma customer_reacts_below_three_witness :
  obs_class customer1 = CustomerObserver ∧
  instance_state state_one !! 0%nat = Some 1 ∧
  update customer1 [0%nat] state_one
  = (Returns tt,
     log [Enter customer1; Print "CustomerObserver: Reacted to the event"] state_one).
Proof.
  assert (Hc : obs_class customer1 = CustomerObserver) by reflexivity.
  assert (Hs : instance_state state_one !! 0%nat = Some 1) by reflexivity.
  split; [exact Hc|]. split; [exact Hs|].
  exact (customer_reacts_below_three customer1 0%nat state_one 1 Hc Hs).
Defined.

Lemma elem_of_log (ev : event) (evs : list event) (w : World) :
  ev ∈ evs → ev ∈ trace (log evs w).
Proof. intros H. unfold log; simpl. apply elem_of_app. by right. Qed.

(** X11: the guards leave no integer state without a reaction.  Whatever
    integer [_state] holds, a customer observer or a driver (or operator)
    observer handed the manager prints its reaction: below 3 the customer,
    from 2 on the other two. *)
Theorem some_observer_class_reacts
    (oc od : Observer) (m : Manager) (w : World) (s : Z)
    (Hcustomer : obs_class oc = CustomerObserver)
    (Hother : obs_class od ≠ CustomerObserver)
    (Hstate : instance_state w !! m = Some s) :
  reacted (obs_class oc) (trace (after (update oc [m]) w))
  || reacted (obs_class od) (trace (after (update od [m]) w)) = true.
Proof.
  unfold reacted, after. rewrite !update_enters, Hcustomer.
  rewrite (CustomerObserver_update_assigned m _ s) by exact Hstate.
  rewrite log_log. cbn [snd].
  destruct (Z.ltb_spec s 3) as [Hlt|Hge].
  - rewrite bool_decide_eq_true_2; [done|].
    apply elem_of_log. right. left.
  - apply orb_true_iff. right. apply bool_decide_eq_true_2.
    assert (Hguard : (s =? 0) || (s >=? 2) = true).
    { rewrite zero_or_at_least_two. apply bool_decide_eq_true_2. lia. }
    destruct (obs_class od); [done| |].
    + rewrite (DriverObserver_update_assigned m _ s) by exact Hstate.
      rewrite log_log, Hguard. cbn [snd]. apply elem_of_log. right. left.
    + rewrite (OperatorObserver_update_assigned m _ s) by exact Hstate.
      rewrite log_log, Hguard. cbn [snd]. apply elem_of_log. right. left.
Qed.

Lemma some_observer_class_reacts_witness :
  obs_class customer1 = CustomerObserver ∧
  obs_class driver2 ≠ CustomerObserver ∧
  instance_state state_one !! 0%nat = Some 1 ∧
  reacted (obs_class customer1) (trace (after (update customer1 [0%nat]) state_one))
  || reacted (obs_class driver2) (trace (after (update driver2 [0%nat]) state_one)) = true.
Proof.
  assert (Hc : obs_class customer1 = CustomerObserver) by reflexivity.
  assert (Hd : obs_class driver2 ≠ CustomerObserver) by discriminate.
  assert (Hs : instance_state state_one !! 0%nat = Some 1) by reflexivity.
  split; [exact Hc|]. split; [exact Hd|]. split; [exact Hs|].
  exact (some_observer_class_reacts customer1 driver2 0%nat state_one 1 Hc Hd Hs).
Defined.

(** X12: an [update] call, whatever its arguments and whether it returns or
    raises, changes neither the subscriber list nor any manager's [_state],
    and only adds to the output. *)
Theorem update_only_prints (o : Observer) (args : list Manager) (w : World) :
  _observers (after (update o args) w) = _observers w ∧
  instance_state (after (update o args) w) = instance_state w ∧
  trace w `prefix_of` trace (after (update o args) w).
Proof.
  destruct args as [|m [|m' args]]; try (repeat split; done).
  unfold after. rewrite update_enters.
  destruct (instance_state w !! m) as [s|] eqn:Hs.
  - destruct (obs_class o).
    + rewrite (CustomerObserver_update_assigned m _ s) by exact Hs.
      rewrite log_log. repeat split. by apply prefix_app_r.
    + rewrite (DriverObserver_update_assigned m _ s) by exact Hs.
      rewrite log_log. repeat split. by apply prefix_app_r.
    + rewrite (OperatorObserver_update_assigned m _ s) by exact Hs.
      rewrite log_log. repeat split. by apply prefix_app_r.
  - assert (Hget : getattr_state m (log [Enter o] w) = (Returns None, log [Enter o] w))
      by (by apply getattr_state_unassigned).
    destruct (obs_class o);
      unfold CustomerObserver_update, DriverObserver_update, OperatorObserver_update;
      rewrite (bind_returns _ _ _ _ _ Hget); simpl;
      try rewrite (bind_returns _ _ _ _ _ Hget); simpl;
      repeat split; by apply prefix_app_r.
Qed.

(** ** Chat messages *)

Lemma add_new_chat_message_same (c : Chat.t) (msg : string)
    (store : gmap nat (list string)) (l : list string) :
  Chat.messages (Chat.chat_messages c) store = Some l →
  Chat.messages (Chat.chat_messages c) (Chat.add_new_chat_message c msg store)
  = Some (l ++ [msg]).
Proof.
  unfold Chat.messages, Chat.add_new_chat_message. intros H.
  by rewrite lookup_alter_eq, H.
Qed.

(** X13: messages are kept in the order they are added and none is lost:
    after any number of [add_new_chat_message] calls the chat's list is the
    old list followed by the new messages, first added first. *)
Theorem add_new_chat_message_keeps_order
    (c : Chat.t) (new_messages : list string)
    (store : gmap nat (list string)) (l : list string)
    (Hlist : Chat.messages (Chat.get_chat_messages c) store = Some l) :
  Chat.messages (Chat.get_chat_messages c) (Chat.add_all c new_messages store)
  = Some (l ++ new_messages).
Proof.
  unfold Chat.get_chat_messages in *. unfold Chat.add_all.
  revert store l Hlist.
  induction new_messages as [|msg rest IH]; intros store l Hlist; simpl.
  - by rewrite (right_id_L [] (++)).
  - rewrite (IH _ (l ++ [msg])).
    + by rewrite <- (assoc_L (++)).
    + by apply add_new_chat_message_same.
Qed.

Lemma add_new_chat_message_keeps_order_witness :
  Chat.messages (Chat.get_chat_messages (Chat.mk 1 1 7 9 3 0))
    {[ 0%nat := ["hello"] ]} = Some ["hello"] ∧
  Chat.messages (Chat.get_chat_messages (Chat.mk 1 1 7 9 3 0))
    (Chat.add_all (Chat.mk 1 1 7 9 3 0) ["where are you"; "two minutes"]
       {[ 0%nat := ["hello"] ]})
  = Some ["hello"; "where are you"; "two minutes"].
Proof.
  assert (H : Chat.messages (Chat.get_chat_messages (Chat.mk 1 1 7 9 3 0))
                {[ 0%nat := ["hello"] ]} = Some ["hello"]) by reflexivity.
  split; [exact H|].
  exact (add_new_chat_message_keeps_order (Chat.mk 1 1 7 9 3 0)
           ["where are you"; "two minutes"] {[ 0%nat := ["hello"] ]} ["hello"] H).
Defined.

(** X14: the constructor keeps the caller's list, so chats built on the same
    list object share their messages: a message added through one is read
    through the other, while a chat built on another list object reads what
    it read before. *)
Theorem chats_on_one_list_share_messages
    (c1 c2 c3 : Chat.t) (msg : string)
    (store : gmap nat (list string)) (l : list string)
    (Hshared : Chat.chat_messages c2 = Chat.chat_messages c1)
    (Hapart : Chat.chat_messages c3 ≠ Chat.chat_messages c1)
    (Hlist : Chat.messages (Chat.get_chat_messages c1) store = Some l) :
  Chat.messages (Chat.get_chat_messages c2) (Chat.add_new_chat_message c1 msg store)
    = Some (l ++ [msg]) ∧
  Chat.messages (Chat.get_chat_messages c3) (Chat.add_new_chat_message c1 msg store)
    = Chat.messages (Chat.get_chat_messages c3) store.
Proof.
  unfold Chat.get_chat_messages in *. split.
  - rewrite Hshared. by apply add_new_chat_message_same.
  - unfold Chat.messages, Chat.add_new_chat_message.
    by rewrite lookup_alter_ne.
Qed.

Lemma chats_on_one_list_share_messages_witness :
  Chat.messages (Chat.get_chat_messages (Chat.mk 2 5 7 9 3 0))
    (Chat.add_new_chat_message (Chat.mk 1 5 7 9 3 0) "on my way"
       {[ 0%nat := ["hello"]; 1%nat := [] ]})
    = Some ["hello"; "on my way"] ∧
  Chat.messages (Chat.get_chat_messages (Chat.mk 3 6 8 9 4 1))
    (Chat.add_new_chat_message (Chat.mk 1 5 7 9 3 0) "on my way"
       {[ 0%nat := ["hello"]; 1%nat := [] ]})
    = Chat.messages (Chat.get_chat_messages (Chat.mk 3 6 8 9 4 1))
        {[ 0%nat := ["hello"]; 1%nat := [] ]}.
Proof.
  apply (chats_on_one_list_share_messages
           (Chat.mk 1 5 7 9 3 0) (Chat.mk 2 5 7 9 3 0) (Chat.mk 3 6 8 9 4 1)
           "on my way" {[ 0%nat := ["hello"]; 1%nat := [] ]} ["hello"]).
  - reflexivity.
  - discriminate.
  - reflexivity.
Defined.

(** ** The factory *)

(** X15: no creator produces a user.  Every [factory_method] calls its class
    without arguments, which the constructor rejects with [TypeError], and
    [some_operation] ends with that exception instead of its message. *)
Theorem factory_produces_no_user (creator : Creator) :
  factory_method creator = Raises TypeError ∧
  some_operation creator = Raises TypeError.
Proof. by destruct creator. Qed.

(** X16: each constructor binds by position and by count.  [Driver] and
    [Customer] raise [TypeError] unless they get four arguments, [Operator]
    unless it gets two; whichever of them returns an object, its [id] and
    [name] are the first and the second argument. *)
Theorem constructors_bind_by_position (args : list value) :
  (Driver_new args = Raises TypeError ↔ length args ≠ 4%nat) ∧
  (Customer_new args = Raises TypeError ↔ length args ≠ 4%nat) ∧
  (Operator_new args = Raises TypeError ↔ length args ≠ 2%nat) ∧
  (∀ u, Driver_new args = Returns u ∨ Customer_new args = Returns u
        ∨ Operator_new args = Returns u →
        args !! 0%nat = Some (get_id u) ∧ args !! 1%nat = Some (get_name u)).
Proof.
  refine (conj _ (conj _ (conj _ _))).
  1-3: destruct args as [|a [|b [|c [|d [|e args]]]]]; simpl;
    (split; [intros H; first [discriminate H | done] | intros H; done]).
  intros u.
  destruct args as [|a [|b [|c [|d [|e args]]]]]; simpl;
    intros [H|[H|H]]; try discriminate H; injection H as <-; done.
Qed.

(** ** Setters on one object *)

(** X17: two [Booking] setters that assign different attributes can be
    called in either order with the same result, and of two calls that
    assign the same attribute only the second shows. *)
Theorem booking_setters_commute_or_overwrite
    (op1 op2 : Booking.mutation) (b : Booking.t) :
  (booking_target op1 ≠ booking_target op2 →
   booking_run [op1; op2] b = booking_run [op2; op1] b) ∧
  (booking_target op1 = booking_target op2 →
   booking_run [op1; op2] b = booking_run [op2] b).
Proof.
  split; intros H; destruct op1, op2; simpl in H; try done; try discriminate H.
Qed.

(** X18: the same for [Location]: setters of different attributes commute,
    and of two calls on the same attribute the later one wins. *)
Theorem location_setters_commute_or_overwrite
    (op1 op2 : Location.mutation) (l : Location.t) :
  (location_target op1 ≠ location_target op2 →
   Location.run [op1; op2] l = Location.run [op2; op1] l) ∧
  (location_target op1 = location_target op2 →
   Location.run [op1; op2] l = Location.run [op2] l).
Proof.
  split; intros H; destruct op1, op2; simpl in H; try done; try discriminate H.
Qed.

(** * The manager over the store of objects *)

(** ** The loop of [notify] *)

Lemma store_log_log (a b : list Objects.event) (s : Objects.Store) :
  Objects.log b (Objects.log a s) = Objects.log (a ++ b) s.
Proof. unfold Objects.log; simpl. by rewrite <- (assoc_L (++)). Qed.

Lemma store_log_nil (s : Objects.Store) : Objects.log [] s = s.
Proof. destruct s; unfold Objects.log; simpl. by rewrite (right_id_L [] (++)). Qed.

Lemma store_bind_returns {A B} (c : Objects.M A) (k : A → Objects.M B)
    (s s' : Objects.Store) (a : A) :
  c s = (Returns a, s') → (c ≫= k) s = k a s'.
Proof. intros H. unfold mbind, Objects.M_bind. by rewrite H. Qed.

Lemma store_bind_raises {A B} (c : Objects.M A) (k : A → Objects.M B)
    (s s' : Objects.Store) (e : exn) :
  c s = (Raises e, s') → (c ≫= k) s = (Raises e, s').
Proof. intros H. unfold mbind, Objects.M_bind. by rewrite H. Qed.

Lemma for_each_print (lines : list string) (s : Objects.Store) :
  Objects.for_each Objects.print lines s
  = (Returns tt, Objects.log (Objects.Out <$> lines) s).
Proof.
  revert s. induction lines as [|line lines IH]; intros s; simpl.
  - by rewrite store_log_nil.
  - rewrite (store_bind_returns (Objects.print line) _ s
               (Objects.log [Objects.Out line] s) tt) by reflexivity.
    by rewrite IH, store_log_log.
Qed.

(** One [update()] call: the subscriber is marked as called, a subclass
    that follows the interface writes its lines, and the call ends as the
    subscriber's [update] ends. *)
Lemma update_ends (x : Objects.subscriber) (s : Objects.Store) :
  Objects.update x s
  = (match Objects.failure x with Some e => Raises e | None => Returns tt end,
     Objects.log (Objects.served x) s).
Proof.
  unfold Objects.update.
  rewrite (store_bind_returns (Objects.emit (Objects.Call x)) _ s
             (Objects.log [Objects.Call x] s) tt) by reflexivity.
  destruct x as [o|id lines ending]; simpl; [done|].
  rewrite (store_bind_returns _ _ _ _ _ (for_each_print lines _)).
  rewrite store_log_log. by destruct ending.
Qed.

(** On an instance of a repository class the call ends as [update] without
    the manager ends in the first model. *)
Lemma repo_update_agrees (o : Observer) (s : Objects.Store) (w : World) :
  Objects.result (Objects.update (Objects.Repo o)) s = result (update o []) w.
Proof. reflexivity. Qed.

Lemma for_each_update_returns (l : list Objects.subscriber) (s : Objects.Store) :
  Forall (λ y, Objects.failure y = None) l →
  Objects.for_each Objects.update l s
  = (Returns tt, Objects.log (l ≫= Objects.served) s).
Proof.
  intros Hl. revert s. induction Hl as [|x l Hx _ IH]; intros s; simpl.
  - by rewrite store_log_nil.
  - rewrite (store_bind_returns (Objects.update x) _ s
               (Objects.log (Objects.served x) s) tt)
      by (by rewrite update_ends, Hx).
    by rewrite IH, store_log_log.
Qed.

Lemma for_each_update_stops (pre : list Objects.subscriber) (x : Objects.subscriber)
    (post : list Objects.subscriber) (e : exn) (s : Objects.Store) :
  Forall (λ y, Objects.failure y = None) pre →
  Objects.failure x = Some e →
  Objects.for_each Objects.update (pre ++ x :: post) s
  = (Raises e, Objects.log ((pre ≫= Objects.served) ++ Objects.served x) s).
Proof.
  intros Hpre Hx. revert s. induction Hpre as [|y pre Hy _ IH]; intros s; simpl.
  - apply store_bind_raises. by rewrite update_ends, Hx.
  - rewrite (store_bind_returns (Objects.update y) _ s
               (Objects.log (Objects.served y) s) tt)
      by (by rewrite update_ends, Hy).
    by rewrite IH, store_log_log, (assoc_L (++)).
Qed.

Lemma store_notify_unfold (self : Manager) (s : Objects.Store) :
  Objects.notify self s
  = Objects.for_each Objects.update (Objects.subscribers self s)
      (Objects.log [Objects.Out "NotificationManager: Notifying observers..."] s).
Proof. reflexivity. Qed.

Lemma called_app (a b : list Objects.event) :
  Objects.called (a ++ b) = Objects.called a ++ Objects.called b.
Proof. apply omap_app. Qed.

Lemma called_served (x : Objects.subscriber) : Objects.called (Objects.served x) = [x].
Proof.
  destruct x as [o|id lines ending]; simpl; [done|].
  f_equal. induction lines as [|line lines IH]; simpl; done.
Qed.

Lemma called_all_served (l : list Objects.subscriber) :
  Objects.called (l ≫= Objects.served) = l.
Proof.
  induction l as [|x l IH]; [done|].
  by rewrite bind_cons, called_app, called_served, IH.
Qed.

(** C5 (as stated, refuted): [plain_a], [broken] and [plain_b] are
    subscribed in this order and [broken]'s [update] raises.  [notify]
    fails with that exception, and [update()] is called on [plain_a] and
    on [broken] but not on [plain_b]. *)
Lemma notify_fails_with_its_subscriber :
  Objects.subscribers 0%nat one_broken = [plain_a; broken; plain_b] ∧
  Objects.failure broken = Some ValueError ∧
  Objects.result (Objects.notify 0%nat) one_broken = Raises ValueError ∧
  Objects.called (Objects.output (Objects.after (Objects.notify 0%nat) one_broken))
    = [plain_a; broken] ∧
  (plain_b ∉ Objects.called (Objects.output (Objects.after (Objects.notify 0%nat) one_broken))).
Proof.
  repeat split. apply (bool_decide_unpack _). vm_compute. exact I.
Qed.

(** C5 (amended): [notify] contains nothing.  When the subscribers before
    some subscriber return from [update()] and that subscriber's [update()]
    raises, [notify] ends with the same exception: it has called the
    subscribers up to and including the failing one, in list order, has
    written their lines, and has called none of the subscribers behind it;
    the lists and the states are as before. *)
Theorem notify_stops_at_first_failure
    (self : Manager) (pre : list Objects.subscriber) (x : Objects.subscriber)
    (post : list Objects.subscriber) (e : exn) (s : Objects.Store)
    (Hlist : Objects.subscribers self s = pre ++ x :: post)
    (Hpre : Forall (λ y, Objects.failure y = None) pre)
    (Hfail : Objects.failure x = Some e) :
  Objects.notify self s
  = (Raises e,
     Objects.log (Objects.Out "NotificationManager: Notifying observers..."
                    :: (pre ≫= Objects.served) ++ Objects.served x) s) ∧
  Objects.called (Objects.output (Objects.after (Objects.notify self) s))
  = Objects.called (Objects.output s) ++ pre ++ [x].
Proof.
  assert (Hn : Objects.notify self s
    = (Raises e,
       Objects.log (Objects.Out "NotificationManager: Notifying observers..."
                      :: (pre ≫= Objects.served) ++ Objects.served x) s)).
  { rewrite store_notify_unfold, Hlist.
    rewrite (for_each_update_stops pre x post e) by done.
    by rewrite store_log_log. }
  split; [exact Hn|].
  unfold Objects.after. rewrite Hn. simpl.
  rewrite called_app. simpl.
  by rewrite called_app, called_all_served, called_served.
Qed.

Lemma notify_stops_at_first_failure_witness :
  Objects.subscribers 0%nat one_broken = [plain_a] ++ broken :: [plain_b] ∧
  Forall (λ y, Objects.failure y = None) [plain_a] ∧
  Objects.failure broken = Some ValueError ∧
  Objects.called (Objects.output (Objects.after (Objects.notify 0%nat) one_broken))
  = Objects.called (Objects.output one_broken) ++ [plain_a] ++ [broken].
Proof.
  assert (Hl : Objects.subscribers 0%nat one_broken = [plain_a] ++ broken :: [plain_b])
    by reflexivity.
  assert (Hp : Forall (λ y, Objects.failure y = None) [plain_a])
    by (repeat constructor).
  assert (Hf : Objects.failure broken = Some ValueError) by reflexivity.
  split; [exact Hl|]. split; [exact Hp|]. split; [exact Hf|].
  exact (proj2 (notify_stops_at_first_failure 0%nat [plain_a] broken [plain_b]
                  ValueError one_broken Hl Hp Hf)).
Defined.

(** ** Where the list is found *)

Lemma class_only_ref (m : Manager) (s : Objects.Store) :
  Objects.class_only s → Objects.observers_ref m s = Objects.class_observers s.
Proof. intros [Hown _]. unfold Objects.observers_ref. by rewrite Hown, lookup_empty. Qed.

Lemma store_attach_spec (self : Manager) (x : Objects.subscriber) (s : Objects.Store) :
  Objects.attach self x s
  = (Returns tt,
     Objects.with_lists (alter (λ l, l ++ [x]) (Objects.observers_ref self s))
       (Objects.log [Objects.Out "NotificationManager: Attached an observer."] s)).
Proof. reflexivity. Qed.

Lemma for_each_update_only_logs (l : list Objects.subscriber) (s : Objects.Store) :
  ∃ r evs, Objects.for_each Objects.update l s = (r, Objects.log evs s).
Proof.
  revert s. induction l as [|x l IH]; intros s; simpl.
  - exists (Returns tt), []. by rewrite store_log_nil.
  - unfold mbind, Objects.M_bind. rewrite update_ends.
    destruct (Objects.failure x) as [e|].
    + by exists (Raises e), (Objects.served x).
    + destruct (IH (Objects.log (Objects.served x) s)) as (r & evs & ->).
      exists r, (Objects.served x ++ evs). by rewrite store_log_log.
Qed.

Lemma notify_only_logs (self : Manager) (s : Objects.Store) :
  ∃ r evs, Objects.notify self s = (r, Objects.log evs s).
Proof.
  rewrite store_notify_unfold.
  destruct (for_each_update_only_logs (Objects.subscribers self s)
              (Objects.log [Objects.Out "NotificationManager: Notifying observers..."] s))
    as (r & evs & ->).
  eexists r, _. by rewrite store_log_log.
Qed.

Lemma store_update_information_unfold (self : Manager) (r : Z) (s : Objects.Store) :
  Objects.update_information self r s
  = Objects.notify self
      (Objects.log
         [Objects.Out (String "010"%char "NotificationManager: location updated.");
          Objects.Out ("NotificationManager: My state has just changed to: " +:+ pretty r)]
         (Objects.after (Objects.setattr_state self r) s)).
Proof.
  unfold Objects.update_information, mbind, Objects.M_bind, Objects.print,
    Objects.emit, Objects.setattr_state, Objects.after, Objects.log. simpl.
  by rewrite <- (assoc_L (++)).
Qed.

(** What a call can change: the lists only through [attach] and [detach],
    the bindings of [_observers] never. *)
Lemma perform_keeps_bindings (c : Objects.request) (s : Objects.Store) :
  Objects.own_observers (Objects.after (Objects.perform c) s) = Objects.own_observers s ∧
  Objects.class_observers (Objects.after (Objects.perform c) s) = Objects.class_observers s ∧
  (∀ ref, is_Some (Objects.lists s !! ref) →
          is_Some (Objects.lists (Objects.after (Objects.perform c) s) !! ref)).
Proof.
  destruct c as [m x|m x|m|m r]; unfold Objects.perform, Objects.after.
  - rewrite store_attach_spec. simpl. repeat split.
    intros ref [l Hl]. destruct (decide (Objects.observers_ref m s = ref)) as [->|Hne].
    + rewrite lookup_alter_eq, Hl. by eexists.
    + rewrite lookup_alter_ne by done. by eexists.
  - unfold Objects.detach, mbind, Objects.M_bind, Objects.self_observers,
      Objects.list_remove.
    destruct (Objects.remove_first x _) as [l'|]; simpl; repeat split; try done.
    intros ref Href. destruct (decide (Objects.observers_ref m s = ref)) as [->|Hne].
    + rewrite lookup_insert_eq. by eexists.
    + by rewrite lookup_insert_ne.
  - destruct (notify_only_logs m s) as (r & evs & ->). by repeat split.
  - rewrite store_update_information_unfold.
    destruct (notify_only_logs m
      (Objects.log
         [Objects.Out (String "010"%char "NotificationManager: location updated.");
          Objects.Out ("NotificationManager: My state has just changed to: " +:+ pretty r)]
         (Objects.after (Objects.setattr_state m r) s))) as (r' & evs & ->).
    by repeat split.
Qed.

Lemma perform_class_only (c : Objects.request) (s : Objects.Store) :
  Objects.class_only s → Objects.class_only (Objects.after (Objects.perform c) s).
Proof.
  intros [Hown Hlist].
  destruct (perform_keeps_bindings c s) as (Ho & Hc & Hl).
  split; [by rewrite Ho | rewrite Hc; by apply Hl].
Qed.

(** No sequence of calls gives an instance an [_observers] of its own:
    the methods read the attribute and mutate the list it refers to, they
    never assign it. *)
Lemma session_class_only (cs : list Objects.request) (s : Objects.Store) :
  Objects.class_only s → Objects.class_only (Objects.session cs s).
Proof.
  revert s. induction cs as [|c cs IH]; intros s Hs; simpl; [done|].
  apply IH. by apply perform_class_only.
Qed.

Lemma initial_store_class_only : Objects.class_only Objects.initial_store.
Proof. split; [done|]. by eexists. Qed.

Lemma attach_extends_class_list (m m' : Manager) (x : Objects.subscriber)
    (s : Objects.Store) :
  Objects.class_only s →
  Objects.subscribers m' (Objects.after (Objects.attach m x) s)
  = Objects.subscribers m' s ++ [x].
Proof.
  intros Hs.
  assert (Hs' : Objects.class_only (Objects.after (Objects.attach m x) s))
    by apply (perform_class_only (Objects.Attach m x) s Hs).
  unfold Objects.subscribers. rewrite !class_only_ref by done.
  unfold Objects.after. rewrite store_attach_spec. simpl.
  rewrite class_only_ref by done.
  unfold Objects.items; simpl. rewrite lookup_alter_eq.
  destruct Hs as [_ [l Hl]]. by rewrite Hl.
Qed.

(** The sharing is a fact about the stores the class's methods produce, not
    about every store: a manager that was given a list of its own does not
    see what is attached through another manager. *)
Lemma own_list_is_not_shared :
  Objects.subscribers 0%nat (Objects.after (Objects.attach 0%nat plain_a) own_list)
    = [plain_a] ∧
  Objects.subscribers 1%nat (Objects.after (Objects.attach 0%nat plain_a) own_list)
    = [].
Proof. split; reflexivity. Qed.

(** C10: the list is the class's.  In every store that calls of the
    manager's methods produce from the loaded module, all managers resolve
    [_observers] to the same list object; an observer attached through
    [m1] is in the list that [m2] sees, at its end; [notify] through [m1]
    and through [m2] are the same computation; and it is that list which
    [notify] iterates: when every subscriber's [update()] returns, [notify]
    through [m2] returns having called every subscriber of the list, the
    one attached through [m1] last. *)
Theorem observers_shared_by_all_managers
    (cs : list Objects.request) (m1 m2 : Manager) (x : Objects.subscriber) :
  let s := Objects.session cs Objects.initial_store in
  let s' := Objects.after (Objects.attach m1 x) s in
  Objects.observers_ref m1 s' = Objects.observers_ref m2 s' ∧
  Objects.subscribers m2 s' = Objects.subscribers m1 s ++ [x] ∧
  (x ∈ Objects.subscribers m2 s') ∧
  Objects.notify m1 s' = Objects.notify m2 s' ∧
  (Forall (λ y, Objects.failure y = None) (Objects.subscribers m1 s ++ [x]) →
   Objects.result (Objects.notify m2) s' = Returns tt ∧
   Objects.called (Objects.output (Objects.after (Objects.notify m2) s'))
   = Objects.called (Objects.output s') ++ Objects.subscribers m1 s ++ [x]).
Proof.
  intros s s'.
  assert (Hs : Objects.class_only s)
    by (apply session_class_only, initial_store_class_only).
  assert (Hs' : Objects.class_only s')
    by apply (perform_class_only (Objects.Attach m1 x) s Hs).
  assert (Hsub : ∀ m, Objects.subscribers m s' = Objects.subscribers m1 s ++ [x]).
  { intros m. unfold s'. rewrite (attach_extends_class_list m1 m x s Hs).
    unfold Objects.subscribers. by rewrite !class_only_ref. }
  assert (Hnotify : ∀ m, Objects.notify m s'
            = Objects.for_each Objects.update (Objects.subscribers m1 s ++ [x])
                (Objects.log
                   [Objects.Out "NotificationManager: Notifying observers..."] s')).
  { intros m. by rewrite store_notify_unfold, Hsub. }
  split; [by rewrite !class_only_ref|].
  split; [apply Hsub|].
  split; [rewrite Hsub; apply elem_of_app; right; by left|].
  split; [by rewrite !Hnotify|].
  intros Hall. unfold Objects.result, Objects.after.
  rewrite Hnotify, (for_each_update_returns _ _ Hall), store_log_log. simpl.
  split; [done|].
  rewrite called_app. simpl. by rewrite called_all_served.
Qed.

Lemma observers_shared_by_all_managers_witness :
  Forall (λ y, Objects.failure y = None)
    (Objects.subscribers 0%nat
       (Objects.session [Objects.Attach 0%nat plain_a] Objects.initial_store)
     ++ [plain_b]) ∧
  Objects.called
    (Objects.output
       (Objects.after (Objects.notify 1%nat)
          (Objects.after (Objects.attach 0%nat plain_b)
             (Objects.session [Objects.Attach 0%nat plain_a] Objects.initial_store))))
  = Objects.called
      (Objects.output
         (Objects.after (Objects.attach 0%nat plain_b)
            (Objects.session [Objects.Attach 0%nat plain_a] Objects.initial_store)))
    ++ Objects.subscribers 0%nat
         (Objects.session [Objects.Attach 0%nat plain_a] Objects.initial_store)
    ++ [plain_b].
Proof.
  assert (H : Forall (λ y, Objects.failure y = None)
                (Objects.subscribers 0%nat
                   (Objects.session [Objects.Attach 0%nat plain_a] Objects.initial_store)
                 ++ [plain_b])) by (repeat constructor).
  split; [exact H|].
  exact (proj2 (proj2 (proj2 (proj2 (proj2
    (observers_shared_by_all_managers [Objects.Attach 0%nat plain_a] 0%nat 1%nat plain_b))))
    H)).
Defined.

(** ** The first model inside the store *)

Lemma written_app (a b : list Objects.event) :
  Objects.written (a ++ b) = Objects.written a ++ Objects.written b.
Proof. apply omap_app. Qed.

Lemma printed_app (a b : list event) : printed (a ++ b) = printed a ++ printed b.
Proof. apply omap_app. Qed.

Lemma remove_first_repo (o : Observer) (l : list Observer) :
  Objects.remove_first (Objects.Repo o) (Objects.Repo <$> l)
  = (λ l' : list Observer, Objects.Repo <$> l') <$> list_remove o l.
Proof.
  induction l as [|y l IH]; [done|].
  rewrite fmap_cons. cbn [Objects.remove_first list_remove].
  destruct (decide (y = o)) as [->|Hne].
  - by rewrite decide_True.
  - rewrite decide_False by congruence. rewrite IH.
    by destruct (list_remove o l).
Qed.

Lemma stands_for_class_only (s : Objects.Store) (w : World) :
  stands_for s w → Objects.class_only s.
Proof. intros (Hown & Hlist & _). split; [done|]. by eexists. Qed.

Lemma stands_for_subscribers (m : Manager) (s : Objects.Store) (w : World) :
  stands_for s w → Objects.subscribers m s = Objects.Repo <$> _observers w.
Proof.
  intros Hsw. unfold Objects.subscribers, Objects.items.
  rewrite (class_only_ref m s (stands_for_class_only s w Hsw)).
  destruct Hsw as (_ & Hlist & _). by rewrite Hlist.
Qed.

Lemma stands_for_log (evs : list Objects.event) (evw : list event)
    (s : Objects.Store) (w : World) :
  Objects.written evs = printed evw →
  stands_for s w → stands_for (Objects.log evs s) (log evw w).
Proof.
  intros Hev (Hown & Hlist & Hstate & Hout). repeat split; simpl; try done.
  by rewrite written_app, printed_app, Hout, Hev.
Qed.

Lemma stands_for_setattr_state (m : Manager) (r : Z) (s : Objects.Store) (w : World) :
  stands_for s w →
  stands_for (Objects.after (Objects.setattr_state m r) s) (after (setattr_state m r) w).
Proof.
  intros (Hown & Hlist & Hstate & Hout). repeat split; simpl; try done.
  by rewrite Hstate.
Qed.

Lemma stands_for_notify (m : Manager) (s : Objects.Store) (w : World) :
  stands_for s w →
  Objects.result (Objects.notify m) s = result (notify m) w ∧
  stands_for (Objects.after (Objects.notify m) s) (after (notify m) w).
Proof.
  intros Hsw. unfold Objects.result, Objects.after, result, after.
  rewrite store_notify_unfold, notify_unfold, (stands_for_subscribers m s w Hsw).
  destruct (_observers w) as [|o rest]; simpl.
  - split; [done|]. by apply stands_for_log.
  - split; [done|].
    change (stands_for
      (Objects.log [Objects.Call (Objects.Repo o)]
         (Objects.log [Objects.Out "NotificationManager: Notifying observers..."] s))
      (log [Print "NotificationManager: Notifying observers..."] w)).
    rewrite store_log_log. by apply stands_for_log.
Qed.

(** The first model is the store seen from the repository's own classes:
    on a store that stands for a world, each call has the result it has on
    the world, and leaves a store that stands for the world it leaves. *)
Lemma store_simulates_world (c : request) (s : Objects.Store) (w : World) :
  stands_for s w →
  Objects.result (Objects.perform (on_store c)) s = result (perform c) w ∧
  stands_for (Objects.after (Objects.perform (on_store c)) s) (after (perform c) w).
Proof.
  intros Hsw.
  pose proof (stands_for_class_only s w Hsw) as Hclass.
  destruct c as [m o|m o|m|m r]; unfold on_store, Objects.perform, perform.
  - unfold Objects.result, Objects.after, result, after.
    rewrite store_attach_spec, attach_spec, (class_only_ref m s Hclass). simpl.
    split; [done|].
    destruct Hsw as (Hown & Hlist & Hstate & Hout). repeat split; simpl; try done.
    + by rewrite lookup_alter_eq, Hlist, fmap_app.
    + by rewrite written_app, printed_app, Hout.
  - unfold Objects.result, Objects.after, result, after.
    unfold Objects.detach, detach, mbind, Objects.M_bind, M_bind,
      Objects.self_observers, self_observers, Objects.list_remove.
    rewrite (class_only_ref m s Hclass).
    assert (Hitems : Objects.items (Objects.class_observers s) s
                     = Objects.Repo <$> _observers w).
    { unfold Objects.items. destruct Hsw as (_ & Hlist & _). by rewrite Hlist. }
    rewrite Hitems, remove_first_repo.
    destruct (list_remove o (_observers w)) as [l'|]; simpl; [|done].
    split; [done|].
    destruct Hsw as (Hown & Hlist & Hstate & Hout). repeat split; simpl; try done.
    by rewrite lookup_insert_eq.
  - by apply stands_for_notify.
  - unfold Objects.result, Objects.after, result, after.
    rewrite store_update_information_unfold.
    assert (Hw : update_information m r w
      = notify m
          (log [Print (String "010"%char "NotificationManager: location updated.");
                Print ("NotificationManager: My state has just changed to: "
                       +:+ pretty r)]
             (after (setattr_state m r) w))).
    { rewrite update_information_unfold. reflexivity. }
    rewrite Hw. apply stands_for_notify.
    apply stands_for_log; [done|]. by apply stands_for_setattr_state.
Qed.

Lemma initial_store_stands_for_initial_world :
  stands_for Objects.initial_store initial_world.
Proof. by repeat split. Qed.

Lemma sessions_agree (cs : list request) (s : Objects.Store) (w : World) :
  stands_for s w →
  stands_for (Objects.session (on_store <$> cs) s) (session cs w).
Proof.
  revert s w. induction cs as [|c cs IH]; intros s w Hsw; simpl; [done|].
  apply IH. by apply store_simulates_world.
Qed.

(** ** Sessions through any managers *)

Lemma perform_lists_through (m : Manager) (c : Objects.request) (s1 s2 : Objects.Store) :
  Objects.class_only s1 → Objects.class_only s2 →
  Objects.lists s1 = Objects.lists s2 →
  Objects.class_observers s1 = Objects.class_observers s2 →
  Objects.lists (Objects.after (Objects.perform c) s1)
  = Objects.lists (Objects.after (Objects.perform (Objects.through m c)) s2).
Proof.
  intros H1 H2 Hl Hc.
  destruct c as [m0 x|m0 x|m0|m0 r];
    unfold Objects.through, Objects.perform, Objects.after.
  - rewrite !store_attach_spec. simpl.
    by rewrite (class_only_ref m0 s1 H1), (class_only_ref m s2 H2), Hl, Hc.
  - unfold Objects.detach, mbind, Objects.M_bind, Objects.self_observers,
      Objects.list_remove, Objects.items.
    rewrite (class_only_ref m0 s1 H1), (class_only_ref m s2 H2), Hl, Hc.
    destruct (Objects.remove_first x _); simpl; [|done].
    by rewrite Hl.
  - destruct (notify_only_logs m0 s1) as (r1 & e1 & ->).
    by destruct (notify_only_logs m s2) as (r2 & e2 & ->).
  - rewrite !store_update_information_unfold.
    destruct (notify_only_logs m0
      (Objects.log
         [Objects.Out (String "010"%char "NotificationManager: location updated.");
          Objects.Out ("NotificationManager: My state has just changed to: " +:+ pretty r)]
         (Objects.after (Objects.setattr_state m0 r) s1))) as (r1 & e1 & ->).
    by destruct (notify_only_logs m
      (Objects.log
         [Objects.Out (String "010"%char "NotificationManager: location updated.");
          Objects.Out ("NotificationManager: My state has just changed to: " +:+ pretty r)]
         (Objects.after (Objects.setattr_state m r) s2))) as (r2 & e2 & ->).
Qed.

Lemma session_lists_through (m : Manager) (cs : list Objects.request)
    (s1 s2 : Objects.Store) :
  Objects.class_only s1 → Objects.class_only s2 →
  Objects.lists s1 = Objects.lists s2 →
  Objects.class_observers s1 = Objects.class_observers s2 →
  Objects.lists (Objects.session cs s1)
    = Objects.lists (Objects.session (Objects.through m <$> cs) s2) ∧
  Objects.class_observers (Objects.session cs s1)
    = Objects.class_observers (Objects.session (Objects.through m <$> cs) s2).
Proof.
  revert s1 s2. induction cs as [|c cs IH]; intros s1 s2 H1 H2 Hl Hc; simpl; [done|].
  apply IH.
  - by apply perform_class_only.
  - by apply perform_class_only.
  - by apply perform_lists_through.
  - destruct (perform_keeps_bindings c s1) as (_ & -> & _).
    by destruct (perform_keeps_bindings (Objects.through m c) s2) as (_ & -> & _).
Qed.

(** X4: the subscribers do not depend on the managers the calls were made
    through.  After any sequence of calls from the loaded module, every
    manager sees the list it would see had every call of the sequence been
    made through one and the same manager. *)
Theorem session_subscribers_ignore_managers
    (cs : list Objects.request) (m m' : Manager) :
  Objects.subscribers m' (Objects.session cs Objects.initial_store)
  = Objects.subscribers m'
      (Objects.session (Objects.through m <$> cs) Objects.initial_store).
Proof.
  destruct (session_lists_through m cs Objects.initial_store Objects.initial_store)
    as [Hl Hc]; try done; try apply initial_store_class_only.
  unfold Objects.subscribers, Objects.items.
  rewrite !class_only_ref
    by (apply session_class_only, initial_store_class_only).
  by rewrite Hl, Hc.
Qed.

(** ** When publishing returns *)

Lemma first_failure (l : list Objects.subscriber) :
  Forall (λ y, Objects.failure y = None) l ∨
  ∃ pre x post e, l = pre ++ x :: post ∧
    Forall (λ y, Objects.failure y = None) pre ∧ Objects.failure x = Some e.
Proof.
  induction l as [|y l IH]; [by left|].
  destruct (Objects.failure y) as [e|] eqn:Hy.
  - right. by exists [], y, l, e.
  - destruct IH as [Hall|(pre & x & post & e & -> & Hpre & Hx)].
    + left. by constructor.
    + right. exists (y :: pre), x, post, e. repeat split; [|done]. by constructor.
Qed.

Lemma notify_result (self : Manager) (s : Objects.Store) :
  Objects.result (Objects.notify self) s = Returns tt
  ↔ Forall (λ y, Objects.failure y = None) (Objects.subscribers self s).
Proof.
  unfold Objects.result. rewrite store_notify_unfold.
  destruct (first_failure (Objects.subscribers self s))
    as [Hall|(pre & x & post & e & Hl & Hpre & Hx)].
  - by rewrite (for_each_update_returns _ _ Hall).
  - rewrite Hl, (for_each_update_stops pre x post e _ Hpre Hx). simpl.
    split; [discriminate|].
    intros Hall. apply Forall_app in Hall as [_ Hall].
    apply Forall_cons in Hall as [Hnone _]. congruence.
Qed.


(** X7: [update_information] assigns [_state] before it publishes.  It
    returns exactly when the [update()] call on every subscriber returns,
    and whether it returns or raises, the manager it was called on has the
    drawn value as its [_state] afterwards and the lists are as before. *)
Theorem update_information_assigns_state_before_notify
    (self : Manager) (r : Z) (s : Objects.Store) :
  (Objects.result (Objects.update_information self r) s = Returns tt
   ↔ Forall (λ y, Objects.failure y = None) (Objects.subscribers self s)) ∧
  Objects.own_state (Objects.after (Objects.update_information self r) s) !! self
    = Some r ∧
  Objects.lists (Objects.after (Objects.update_information self r) s) = Objects.lists s.
Proof.
  unfold Objects.result, Objects.after.
  rewrite store_update_information_unfold.
  set (s1 := Objects.log _ _).
  split.
  - apply (notify_result self s1).
  - destruct (notify_only_logs self s1) as (r' & evs & ->). simpl.
    split; [apply lookup_insert_eq | done].
Qed.
